(** * MongoDB query clause modification

    A shallow embedding of [omit], [removeFieldClausesFromQuery] (exported
    and tested under the name [removeFieldReferences]) and [addOrClause],
    followed by the properties of the specification that the code satisfies.

    - An object is the list of its own properties in the order in which
      [Object.keys], spread and rest destructuring enumerate them. Copies
      made by spread and rest destructuring are new values with the same
      list; nothing is ever assigned to, so sharing cannot be observed.
    - A TypeError thrown by the code is the result [None].
    - [maxDepth] is an integer; the recursion on it is structural recursion
      on its positive part.
    - Numbers are integers and carried through as they are. *)

From Stdlib Require Import List String Ascii ZArith NArith Bool Lia DecimalString.
Import ListNotations.
Open Scope string_scope.
Open Scope list_scope.

#[local] Set Warnings "-register-all,-notation-for-abbreviation".
#[local] Arguments String.eqb : simpl never.

(** ** Values and documents *)

(** A value of a query: scalars and sub-documents are carried through without
    being inspected; an array holds documents, as the values of [$or] and
    [$and] do. *)
Inductive value : Type :=
| VNull
| VBool (b : bool)
| VNum (n : Z)
| VStr (s : string)
| VObj (props : list (string * value))
| VArr (elems : list (list (string * value))).

(** The own enumerable properties of an object, in enumeration order. *)
Notation doc := (list (string * value)) (only parsing).

(** JavaScript's ToBoolean; a missing property reads as [undefined]. *)
Definition truthy (v : value) : bool :=
  match v with
  | VNull => false
  | VBool b => b
  | VNum n => negb (n =? 0)%Z
  | VStr s => negb (s =? "")
  | VObj _ => true
  | VArr _ => true
  end.

Definition truthy_opt (o : option value) : bool :=
  match o with
  | Some v => truthy v
  | None => false
  end.

(** Property read [obj.k]. *)
Fixpoint get (k : string) (obj : doc) : option value :=
  match obj with
  | [] => None
  | (k', v) :: rest => if k' =? k then Some v else get k rest
  end.

Definition keys (obj : doc) : list string := map fst obj.

Definition has_key (k : string) (obj : doc) : bool :=
  existsb (fun k' => k' =? k) (keys obj).

(** [Object.keys(q).length > 0] *)
Definition nonempty {A : Type} (l : list A) : bool :=
  match l with
  | [] => false
  | _ :: _ => true
  end.

(** Rest destructuring [const {[k]: ignore, ...rest} = obj]. *)
Definition without (k : string) (obj : doc) : doc :=
  filter (fun kv => negb (fst kv =? k)) obj.

(** A property key is an array index when it is the canonical decimal form of
    an integer below 2^32 - 1; objects enumerate such keys first, in numeric
    order, and the other keys after them in order of creation. *)
Definition index_of (k : string) : option N :=
  match NilZero.uint_of_string k with
  | Some u =>
      let n := N.of_uint u in
      if (NilZero.string_of_uint (N.to_uint n) =? k) && (n <? 4294967295)%N
      then Some n else None
  | None => None
  end.

Definition is_array_index (k : string) : bool :=
  match index_of k with
  | Some _ => true
  | None => false
  end.

Fixpoint replace_value (k : string) (v : value) (obj : doc) : doc :=
  match obj with
  | [] => []
  | (k', x) :: rest =>
      if k' =? k then (k, v) :: rest else (k', x) :: replace_value k v rest
  end.

Fixpoint insert_index (n : N) (k : string) (v : value) (obj : doc) : doc :=
  match obj with
  | [] => [(k, v)]
  | (k', x) :: rest =>
      match index_of k' with
      | Some m =>
          if (m <? n)%N then (k', x) :: insert_index n k v rest
          else (k, v) :: (k', x) :: rest
      | None => (k, v) :: (k', x) :: rest
      end
  end.

(** Defining property [k] on an object under construction: an existing
    property keeps its place, a new one is enumerated after the others
    (an array index: among the indices). *)
Definition set (k : string) (v : value) (obj : doc) : doc :=
  if has_key k obj then replace_value k v obj
  else match index_of k with
       | Some n => insert_index n k v obj
       | None => obj ++ [(k, v)]
       end.

(** Object spread [{...target, ...source}]. *)
Definition spread (target source : doc) : doc :=
  fold_left (fun acc kv => set (fst kv) (snd kv) acc) source target.

(** The enumeration order of an object's own keys: no key twice, the array
    indices first in ascending order, the other keys after them. *)
Definition later_keys_ok (k : string) (later : list string) : bool :=
  negb (existsb (fun k' => k' =? k) later) &&
  match index_of k with
  | Some n =>
      forallb (fun k' => match index_of k' with
                         | Some m => (n <? m)%N
                         | None => true
                         end) later
  | None => forallb (fun k' => negb (is_array_index k')) later
  end.

Fixpoint enumeration_order (ks : list string) : bool :=
  match ks with
  | [] => true
  | k :: later => later_keys_ok k later && enumeration_order later
  end.

(** The lists that stand for an object. *)
Definition js_object (d : doc) : bool := enumeration_order (keys d).

(** The same order as a relation between a key and a later one. *)
Definition before_ok (k k' : string) : Prop :=
  k' <> k /\
  match index_of k, index_of k' with
  | Some n, Some m => (n < m)%N
  | Some _, None => True
  | None, Some _ => False
  | None, None => True
  end.

(** ** The error monad of thrown TypeErrors *)

Definition bind {A B : Type} (m : option A) (f : A -> option B) : option B :=
  match m with
  | Some a => f a
  | None => None
  end.

Notation "x <- m ;; k" := (bind m (fun x => k))
  (at level 61, m at next level, right associativity).

Fixpoint mapM {A B : Type} (f : A -> option B) (l : list A) : option (list B) :=
  match l with
  | [] => Some []
  | a :: l' => b <- f a ;; bs <- mapM f l' ;; Some (b :: bs)
  end.

(** [(x || [])] used as an array: a falsy or missing [x] gives the empty
    array and an array its elements. Any other truthy value has no [map]
    method and, but for a string, cannot be spread; a string would be spread
    character by character into something that is no sequence of documents,
    which the model leaves out as well. *)
Definition or_empty (x : option value) : option (list doc) :=
  match x with
  | None => Some []
  | Some v =>
      if truthy v then
        match v with
        | VArr l => Some l
        | _ => None
        end
      else Some []
  end.

(** ** KeyOmitter *)

(** [omit(obj, [field, ...nextFields])]: destructuring the empty list binds
    [field] to [undefined], and the computed key [[undefined]] is the
    property named "undefined". *)
Fixpoint omit (obj : doc) (fields : list string) : doc :=
  match fields with
  | [] => without "undefined" obj
  | field :: nextFields =>
      let rest := without field obj in
      if nonempty nextFields then omit rest nextFields else rest
  end.

(** ** FieldReferenceRemover *)

(** The recursion of [removeFieldClausesFromQuery] on its depth argument:
    [depth = 0] is the guard [maxDepth <= 0], and [S depth'] a positive
    [maxDepth] whose recursive calls receive [maxDepth - 1]. *)
Fixpoint remove_at_depth (depth : nat) (query : doc) (fieldName : string)
  : option doc :=
  match depth with
  | O => Some query
  | S depth' =>
      let filteredTopLevel := omit query [fieldName] in
      ors <- or_empty (get "$or" filteredTopLevel) ;;
      mappedOr <- mapM (fun q => remove_at_depth depth' q fieldName) ors ;;
      let newOr := filter nonempty mappedOr in
      ands <- or_empty (get "$and" filteredTopLevel) ;;
      mappedAnd <- mapM (fun q => remove_at_depth depth' q fieldName) ands ;;
      let newAnd := filter nonempty mappedAnd in
      Some (spread
              (spread (omit filteredTopLevel ["$or"; "$and"])
                      (if nonempty newOr then [("$or", VArr newOr)] else []))
              (if nonempty newAnd then [("$and", VArr newAnd)] else []))
  end.

Definition removeFieldClausesFromQuery
  (query : doc) (fieldName : string) (maxDepth : Z) : option doc :=
  remove_at_depth (Z.to_nat maxDepth) query fieldName.

(** The name under which the function is exported, with its default
    [maxDepth = 5]. *)
Definition removeFieldReferences
  (query : doc) (fieldName : string) (maxDepth : option Z) : option doc :=
  removeFieldClausesFromQuery query fieldName
    (match maxDepth with Some d => d | None => 5%Z end).

(** ** OrClauseMerger *)

(** The three cases of the source, in its order. The spread of [$and] into
    the new array is [or_empty]: on a query whose [$and] holds a non-empty
    string the source iterates the string and returns, which the model does
    not follow; no statement below is about such a query. *)
Definition addOrClause (query orClause : doc) : option doc :=
  let or := get "$or" query in
  let queryRest := without "$or" query in
  let withoutOr :=
    if truthy_opt (get "$and" queryRest) then
      ands <- or_empty (get "$and" queryRest) ;;
      Some (set "$and" (VArr (ands ++ [orClause])) queryRest)
    else Some (spread query orClause) in
  match or with
  | Some orv =>
      if truthy orv then
        ands <- or_empty (get "$and" queryRest) ;;
        Some (set "$and" (VArr (ands ++ [[("$or", orv)]; orClause])) queryRest)
      else withoutOr
  | None => withoutOr
  end.

(** ** Predicates of the specification *)

Definition is_operator (k : string) : bool := (k =? "$or") || (k =? "$and").

(** The elements of the array bound to [k], if any. *)
Definition seq_of (k : string) (d : doc) : list doc :=
  match get k d with
  | Some (VArr l) => l
  | _ => []
  end.

(** The sub-documents one nesting level below [d]. *)
Definition subqueries (d : doc) : list doc := seq_of "$or" d ++ seq_of "$and" d.

(** [free_of f n d]: no key [f] in [d] nor in the sub-documents of the next
    [n - 1] nesting levels; [free_of f 0 d] says nothing. *)
Fixpoint free_of (f : string) (n : nat) (d : doc) : bool :=
  match n with
  | O => true
  | S n' => negb (has_key f d) && forallb (free_of f n') (subqueries d)
  end.

(** [seq_typed v]: [v] is an array of query documents, in each of which
    [$or] and [$and] are bound to such arrays again. *)
Fixpoint seq_typed (v : value) : bool :=
  match v with
  | VArr l =>
      forallb (fun e : list (string * value) =>
                 forallb (fun kx : string * value =>
                            let (k, x) := kx in
                            if is_operator k then seq_typed x else true) e) l
  | _ => false
  end.

(** The data model: every [$or] and [$and] holds a sequence of query
    documents. *)
Definition query_document (d : doc) : bool :=
  forallb (fun kx : string * value =>
             let (k, x) := kx in if is_operator k then seq_typed x else true) d.

(** [seq_valid v]: an array [v] is not empty and holds no empty document,
    and so on in its elements. *)
Fixpoint seq_valid (v : value) : bool :=
  match v with
  | VArr l =>
      nonempty l &&
      forallb (fun e : list (string * value) =>
                 nonempty e &&
                 forallb (fun kx : string * value =>
                            let (k, x) := kx in
                            if is_operator k then seq_valid x else true) e) l
  | _ => true
  end.

(** The shape invariant: no [$or] or [$and] bound to an empty sequence and no
    empty document in such a sequence, at any nesting level. *)
Definition valid_shape (d : doc) : bool :=
  forallb (fun kx : string * value =>
             let (k, x) := kx in if is_operator k then seq_valid x else true) d.

(** The same invariant down to nesting level [n] only. *)
Fixpoint valid_to (n : nat) (d : doc) : bool :=
  match n with
  | O => true
  | S n' =>
      forallb (fun kx : string * value =>
                 let (k, x) := kx in
                 if is_operator k then
                   match x with
                   | VArr l =>
                       nonempty l &&
                       forallb (fun e => nonempty e && valid_to n' e) l
                   | _ => true
                   end
                 else true) d
  end.

(** Equality of documents up to the order of keys. *)
Inductive opt_rel {A : Type} (R : A -> A -> Prop) : option A -> option A -> Prop :=
| opt_rel_none : opt_rel R None None
| opt_rel_some a b : R a b -> opt_rel R (Some a) (Some b).

Inductive same_value : value -> value -> Prop :=
| same_refl v : same_value v v
| same_obj p p' :
    (forall k, opt_rel same_value (get k p) (get k p')) ->
    same_value (VObj p) (VObj p')
| same_arr l l' :
    Forall2 (fun d d' => same_value (VObj d) (VObj d')) l l' ->
    same_value (VArr l) (VArr l').

Definition same_doc (d d' : doc) : Prop := same_value (VObj d) (VObj d').

(** ** The parts of a result *)

(** What the final object literal builds: the remaining keys in their
    order, then [$or], then [$and], each only when its sequence is not
    empty. *)
Definition rebuilt (base : doc) (newOr newAnd : list doc) : doc :=
  base ++ (if nonempty newOr then [("$or", VArr newOr)] else [])
       ++ (if nonempty newAnd then [("$and", VArr newAnd)] else []).

Definition others (query : doc) (fieldName : string) : doc :=
  without "$and" (without "$or" (without fieldName query)).

(** The order that C9 states: the keys that are no operator, then [$and],
    then [$or]. *)
Definition key_rank (k : string) : nat :=
  if k =? "$or" then 2 else if k =? "$and" then 1 else 0.

Fixpoint ranks_ascend (ks : list string) : bool :=
  match ks with
  | [] => true
  | k :: ks' =>
      forallb (fun k' => key_rank k <=? key_rank k')%nat ks' && ranks_ascend ks'
  end.

(** ** The removal as a total function *)

(** What [removeFieldClausesFromQuery] computes on a well-typed query, where
    no call throws: the same recursion with [map] for the sequenced calls. *)
Fixpoint strip (depth : nat) (fieldName : string) (query : doc) : doc :=
  match depth with
  | O => query
  | S depth' =>
      rebuilt (others query fieldName)
        (filter nonempty
           (map (strip depth' fieldName) (seq_of "$or" (without fieldName query))))
        (filter nonempty
           (map (strip depth' fieldName) (seq_of "$and" (without fieldName query))))
  end.

(** [fits n q]: the query has at most [n] nesting levels, its top level
    being the first. *)
Fixpoint fits (n : nat) (q : doc) : bool :=
  match n with
  | O => false
  | S n' => forallb (fits n') (subqueries q)
  end.

(** A document whose only key, if any, is [f]. *)
Definition only_field (f : string) (e : doc) : bool :=
  forallb (fun k => k =? f) (keys e).

(** ** Sample documents *)

Definition myOrClause : doc :=
  [("$or", VArr [[("myField", VStr "value")]; [("myField", VNull)]])].

Definition nested_hello : doc :=
  [("$and", VArr [[("$or", VArr [[("hello", VStr "value"); ("a", VNum 1)];
                                 [("hello", VNull)]])];
                  [("hello", VNum 2); ("otherField", VStr "x")]])].

Definition empty_or_below_depth : doc :=
  [("$or", VArr [[("a", VNum 1); ("$and", VArr [])]])].

Definition or_and_query : doc :=
  [("$or", VArr [[("hello", VStr "world")]]);
   ("$and", VArr [[("foo", VStr "bar")]; [("bar", VStr "baz")]])].

Definition and_query : doc :=
  [("$and", VArr [[("foo", VStr "bar")]; [("bar", VStr "baz")]])].

Definition created_clause : doc :=
  [("$or", VArr [[("createdAt", VObj [("$exists", VBool false)])];
                 [("createdAt", VNum 42)]])].

Definition or_below_and : doc :=
  [("$and", VArr [[("$or", VArr [[("a", VNum 1)]])]])].

Definition null_or_query : doc :=
  [("$or", VNull); ("$and", VArr [[("a", VNum 1)]])].

Definition unordered_query : doc :=
  [("$and", VArr [[("b", VNum 2)]]); ("a", VNum 0); ("hello", VNull);
   ("$or", VArr [[("a", VNum 1)]])].

(** * Properties *)

Ltac case_if :=
  match goal with
  | |- context [if ?c then _ else _] => destruct c eqn:?
  end.

(** ** The scenarios of the test suites *)

Example index_of_examples :
  index_of "0" = Some 0%N /\ index_of "42" = Some 42%N /\
  index_of "042" = None /\ index_of "" = None /\ index_of "$or" = None /\
  index_of "4294967294" = Some 4294967294%N /\ index_of "4294967295" = None.
Proof. vm_compute. repeat split. Qed.

Example add_no_or :
  addOrClause [("foo", VStr "bar")] myOrClause
  = Some [("foo", VStr "bar");
          ("$or", VArr [[("myField", VStr "value")]; [("myField", VNull)]])].
Proof. reflexivity. Qed.

Example add_existing_or :
  addOrClause
    [("$or", VArr [[("foo", VStr "bar")];
                   [("foo", VObj [("$exists", VBool false)])]])]
    myOrClause
  = Some [("$and", VArr [[("$or", VArr [[("foo", VStr "bar")];
                            [("foo", VObj [("$exists", VBool false)])]])];
                         myOrClause])].
Proof. reflexivity. Qed.

Example add_existing_or_and_and :
  addOrClause
    [("$or", VArr [[("hello", VStr "world")]]);
     ("$and", VArr [[("foo", VStr "bar")]; [("bar", VStr "baz")]])]
    myOrClause
  = Some [("$and", VArr [[("foo", VStr "bar")]; [("bar", VStr "baz")];
                         [("$or", VArr [[("hello", VStr "world")]])];
                         myOrClause])].
Proof. reflexivity. Qed.

Example add_existing_and :
  addOrClause
    [("$and", VArr [[("foo", VStr "bar")]; [("bar", VStr "baz")]])]
    myOrClause
  = Some [("$and", VArr [[("foo", VStr "bar")]; [("bar", VStr "baz")];
                         myOrClause])].
Proof. reflexivity. Qed.

Example remove_top_level :
  removeFieldReferences [("hello", VStr "value")] "hello" None = Some [].
Proof. reflexivity. Qed.

Example remove_depth_zero :
  removeFieldReferences [("hello", VStr "value")] "hello" (Some 0%Z)
  = Some [("hello", VStr "value")].
Proof. reflexivity. Qed.

Example remove_in_or :
  removeFieldReferences
    [("$or", VArr [[("hello", VStr "value"); ("otherField", VStr "not-related")];
                   [("hello", VStr "othervalue");
                    ("otherField", VStr "even-less-related")]])]
    "hello" None
  = Some [("$or", VArr [[("otherField", VStr "not-related")];
                        [("otherField", VStr "even-less-related")]])].
Proof. reflexivity. Qed.

Example remove_emptied_or_entry :
  removeFieldReferences
    [("$or", VArr [[("hello", VStr "value")];
                   [("otherField", VStr "not-related")]])]
    "hello" None
  = Some [("$or", VArr [[("otherField", VStr "not-related")]])].
Proof. reflexivity. Qed.

Example remove_emptied_and :
  removeFieldReferences
    [("foo", VStr "bar");
     ("$and", VArr [[("hello", VStr "value")]; [("hello", VStr "other-value")]])]
    "hello" None
  = Some [("foo", VStr "bar")].
Proof. reflexivity. Qed.

Example remove_nested_or_in_and :
  removeFieldReferences
    [("$and", VArr [[("$or", VArr [[("hello", VStr "value")];
                                   [("hello", VNull)]])];
                    [("otherField", VStr "not-related")]])]
    "hello" None
  = Some [("$and", VArr [[("otherField", VStr "not-related")]])].
Proof. reflexivity. Qed.

(** ** Properties of the object primitives *)

Lemma seq_typed_arr l : seq_typed (VArr l) = forallb query_document l.
Proof. reflexivity. Qed.

Lemma seq_valid_arr l :
  seq_valid (VArr l) = nonempty l && forallb (fun e => nonempty e && valid_shape e) l.
Proof. reflexivity. Qed.

Lemma get_app k a b :
  get k (a ++ b) = match get k a with Some v => Some v | None => get k b end.
Proof.
  induction a as [|[k' x] a IH]; simpl; [reflexivity|].
  destruct (k' =? k); [reflexivity | exact IH].
Qed.

Lemma has_key_cons k k' x d :
  has_key k ((k', x) :: d) = (k' =? k) || has_key k d.
Proof. reflexivity. Qed.

Lemma has_key_app k a b : has_key k (a ++ b) = has_key k a || has_key k b.
Proof. unfold has_key, keys. rewrite map_app, existsb_app. reflexivity. Qed.

Lemma has_key_false_get k d : has_key k d = false <-> get k d = None.
Proof.
  induction d as [|[k' x] d IH]; simpl; [tauto|].
  rewrite has_key_cons. destruct (k' =? k); simpl; [split; discriminate | exact IH].
Qed.

Lemma has_key_true_get k d : has_key k d = true <-> exists v, get k d = Some v.
Proof.
  destruct (has_key k d) eqn:E.
  - split; [intros _ | reflexivity].
    destruct (get k d) eqn:G; [eauto|].
    apply has_key_false_get in G. congruence.
  - apply has_key_false_get in E. rewrite E.
    split; [discriminate | intros [v Hv]; discriminate].
Qed.

Lemma get_In k v d : get k d = Some v -> In (k, v) d.
Proof.
  induction d as [|[k' x] d IH]; simpl; [discriminate|].
  destruct (String.eqb_spec k' k) as [->|_].
  - intros [= ->]. now left.
  - intros H. right. now apply IH.
Qed.

Lemma without_app k a b : without k (a ++ b) = without k a ++ without k b.
Proof. apply filter_app. Qed.

Lemma has_key_without_same k d : has_key k (without k d) = false.
Proof.
  induction d as [|[k' x] d IH]; simpl; [reflexivity|].
  destruct (k' =? k) eqn:E; simpl; [exact IH|].
  rewrite has_key_cons, E. exact IH.
Qed.

Lemma has_key_without_other k k' d :
  k <> k' -> has_key k (without k' d) = has_key k d.
Proof.
  intros Hne. induction d as [|[k0 x] d IH]; simpl; [reflexivity|].
  rewrite has_key_cons.
  destruct (String.eqb_spec k0 k') as [->|N]; simpl.
  - rewrite IH. destruct (String.eqb_spec k' k); [congruence | reflexivity].
  - rewrite has_key_cons, IH. reflexivity.
Qed.

Lemma has_key_without k k' d :
  has_key k (without k' d) = negb (k' =? k) && has_key k d.
Proof.
  destruct (String.eqb_spec k' k) as [->|N]; simpl.
  - apply has_key_without_same.
  - apply has_key_without_other. congruence.
Qed.

Lemma get_without_same k d : get k (without k d) = None.
Proof. apply has_key_false_get, has_key_without_same. Qed.

Lemma get_without_other k k' d : k <> k' -> get k (without k' d) = get k d.
Proof.
  intros Hne. induction d as [|[k0 x] d IH]; simpl; [reflexivity|].
  destruct (String.eqb_spec k0 k') as [->|N]; simpl.
  - rewrite IH. destruct (String.eqb_spec k' k); [congruence | reflexivity].
  - rewrite IH. reflexivity.
Qed.

Lemma without_absent k d : has_key k d = false -> without k d = d.
Proof.
  induction d as [|[k' x] d IH]; simpl; [reflexivity|].
  rewrite has_key_cons. destruct (k' =? k); simpl; [discriminate|].
  intros H. now rewrite IH.
Qed.

Lemma without_comm k k' d : without k (without k' d) = without k' (without k d).
Proof.
  induction d as [|[k0 x] d IH]; simpl; [reflexivity|].
  destruct (k0 =? k') eqn:E1; destruct (k0 =? k) eqn:E2; simpl;
    rewrite ?E1, ?E2; simpl; now rewrite ?IH.
Qed.

Lemma keys_without k d : keys (without k d) = filter (fun k' => negb (k' =? k)) (keys d).
Proof.
  induction d as [|[k' x] d IH]; simpl; [reflexivity|].
  destruct (k' =? k); simpl; now rewrite IH.
Qed.

Lemma get_replace_value k v k' d :
  get k' (replace_value k v d)
  = if k =? k' then (if has_key k d then Some v else None) else get k' d.
Proof.
  induction d as [|[k0 x] d IH]; simpl.
  - now destruct (k =? k').
  - rewrite has_key_cons.
    destruct (String.eqb_spec k0 k) as [->|N]; simpl.
    + destruct (k =? k'); reflexivity.
    + rewrite IH. destruct (String.eqb_spec k k') as [->|N']; [|reflexivity].
      destruct (String.eqb_spec k0 k'); [congruence | reflexivity].
Qed.

Lemma get_insert_index n k v k' d :
  has_key k d = false ->
  get k' (insert_index n k v d) = if k =? k' then Some v else get k' d.
Proof.
  induction d as [|[k0 x] d IH]; simpl; [reflexivity|].
  rewrite has_key_cons. intros H. apply orb_false_iff in H as [H0 Hd].
  destruct (index_of k0) as [m|]; [destruct (m <? n)%N|]; simpl; try reflexivity.
  rewrite (IH Hd).
  destruct (String.eqb_spec k0 k') as [->|N]; [|reflexivity].
  now rewrite String.eqb_sym, H0.
Qed.

Lemma get_set k v k' d :
  get k' (set k v d) = if k =? k' then Some v else get k' d.
Proof.
  unfold set. destruct (has_key k d) eqn:H.
  - rewrite get_replace_value, H. reflexivity.
  - destruct (index_of k) as [n|].
    + now apply get_insert_index.
    + rewrite get_app. simpl.
      destruct (String.eqb_spec k k') as [->|N].
      * apply has_key_false_get in H. now rewrite H.
      * now destruct (get k' d).
Qed.

Lemma set_fresh k v d :
  has_key k d = false -> index_of k = None -> set k v d = d ++ [(k, v)].
Proof. unfold set. now intros -> ->. Qed.

Lemma spread_nil d : spread d [] = d.
Proof. reflexivity. Qed.

Lemma spread_cons d k v c : spread d ((k, v) :: c) = spread (set k v d) c.
Proof. reflexivity. Qed.

Lemma get_spread k d c :
  get k (spread d c) = match get k (rev c) with Some v => Some v | None => get k d end.
Proof.
  revert d. induction c as [|[k0 x] c IH]; intros d; [reflexivity|].
  rewrite spread_cons, IH. simpl rev. rewrite get_app, get_set. simpl.
  destruct (get k (rev c)); [reflexivity|].
  now destruct (k0 =? k).
Qed.

(** ** [omit] *)

Lemma omit_one d f : omit d [f] = without f d.
Proof. reflexivity. Qed.

Lemma omit_two d f g : omit d [f; g] = without g (without f d).
Proof. reflexivity. Qed.

Lemma omit_cons d f fields :
  fields <> [] -> omit d (f :: fields) = omit (without f d) fields.
Proof. destruct fields; [congruence | reflexivity]. Qed.

Lemma get_omit k fields d :
  fields <> [] ->
  get k (omit d fields) = if existsb (fun f => f =? k) fields then None else get k d.
Proof.
  revert d. induction fields as [|f fields IH]; intros d Hne; [congruence|].
  destruct fields as [|g fields].
  - simpl. rewrite orb_false_r.
    destruct (String.eqb_spec f k) as [->|N].
    + apply get_without_same.
    + apply get_without_other. congruence.
  - rewrite omit_cons by discriminate. rewrite IH by discriminate.
    change (existsb (fun f0 => f0 =? k) (f :: g :: fields))
      with ((f =? k) || existsb (fun f0 => f0 =? k) (g :: fields)).
    destruct (existsb (fun f0 => f0 =? k) (g :: fields)).
    + now rewrite orb_true_r.
    + rewrite orb_false_r. destruct (String.eqb_spec f k) as [->|N].
      * apply get_without_same.
      * apply get_without_other. congruence.
Qed.

Lemma filter_twice {A : Type} (p q : A -> bool) l :
  filter p (filter q l) = filter (fun x => q x && p x) l.
Proof.
  induction l as [|x l IH]; simpl; [reflexivity|].
  destruct (q x); simpl; [destruct (p x)|]; now rewrite IH.
Qed.

Lemma keys_omit fields d :
  fields <> [] ->
  keys (omit d fields)
  = filter (fun k => negb (existsb (fun f => f =? k) fields)) (keys d).
Proof.
  revert d. induction fields as [|f fields IH]; intros d Hne; [congruence|].
  destruct fields as [|g fields].
  - simpl. rewrite keys_without. apply filter_ext.
    intros k. rewrite orb_false_r. f_equal. apply String.eqb_sym.
  - rewrite omit_cons by discriminate. rewrite IH by discriminate.
    rewrite keys_without, filter_twice. apply filter_ext.
    intros k. rewrite (String.eqb_sym k f).
    change (existsb (fun f0 => f0 =? k) (f :: g :: fields))
      with ((f =? k) || existsb (fun f0 => f0 =? k) (g :: fields)).
    now rewrite negb_orb.
Qed.

(** ** Sequencing of fallible calls *)

Lemma mapM_Forall2 {A B : Type} (f : A -> option B) l l' :
  mapM f l = Some l' <-> Forall2 (fun a b => f a = Some b) l l'.
Proof.
  revert l'. induction l as [|a l IH]; intros l'; simpl.
  - split.
    + intros [= <-]. constructor.
    + intros H. inversion H. reflexivity.
  - split.
    + destruct (f a) as [b|] eqn:Fa; simpl; [|discriminate].
      destruct (mapM f l) as [bs|] eqn:M; simpl; [|discriminate].
      intros [= <-]. constructor; [exact Fa | now apply IH].
    + intros H. inversion H as [|a' b l0 bs Fa Hl]; subst.
      rewrite Fa. simpl. apply IH in Hl. rewrite Hl. reflexivity.
Qed.

Lemma mapM_fixed {A : Type} (f : A -> option A) l :
  Forall (fun a => f a = Some a) l -> mapM f l = Some l.
Proof.
  induction 1 as [|a l Fa _ IH]; simpl; [reflexivity|].
  rewrite Fa. simpl. rewrite IH. reflexivity.
Qed.

Lemma mapM_total {A B : Type} (f : A -> option B) l :
  Forall (fun a => exists b, f a = Some b) l -> exists l', mapM f l = Some l'.
Proof.
  induction 1 as [|a l [b Fa] _ [l' IH]]; simpl; [eauto|].
  rewrite Fa. simpl. rewrite IH. simpl. eauto.
Qed.

Lemma filter_nonempty_fixed {A : Type} (l : list (list A)) :
  forallb nonempty l = true -> filter nonempty l = l.
Proof.
  induction l as [|a l IH]; simpl; [reflexivity|].
  intros H. apply andb_true_iff in H as [Ha Hl]. rewrite Ha. now rewrite IH.
Qed.

Lemma forallb_filter_same {A : Type} (p : A -> bool) l :
  forallb p (filter p l) = true.
Proof.
  induction l as [|a l IH]; simpl; [reflexivity|].
  destruct (p a) eqn:E; simpl; [rewrite E|]; exact IH.
Qed.

(** ** The shape of a result of [removeFieldClausesFromQuery] *)

Lemma others_no_or q f : has_key "$or" (others q f) = false.
Proof.
  unfold others. rewrite has_key_without. simpl.
  apply has_key_without_same.
Qed.

Lemma others_no_and q f : has_key "$and" (others q f) = false.
Proof. apply has_key_without_same. Qed.

Lemma others_no_field q f : has_key f (others q f) = false.
Proof.
  unfold others. rewrite !has_key_without, String.eqb_refl. simpl.
  now rewrite !andb_false_r.
Qed.

Lemma get_others k q f :
  get k (others q f) = if is_operator k || (f =? k) then None else get k q.
Proof.
  unfold others, is_operator.
  destruct (String.eqb_spec k "$and") as [->|Na].
  { rewrite orb_true_r. apply get_without_same. }
  rewrite get_without_other by assumption.
  destruct (String.eqb_spec k "$or") as [->|No].
  { apply get_without_same. }
  rewrite get_without_other by assumption. simpl.
  destruct (String.eqb_spec f k) as [->|Nf].
  - apply get_without_same.
  - apply get_without_other. congruence.
Qed.

Lemma remove_at_depth_S n q f :
  remove_at_depth (S n) q f =
  (ors <- or_empty (get "$or" (without f q)) ;;
   mappedOr <- mapM (fun q' => remove_at_depth n q' f) ors ;;
   ands <- or_empty (get "$and" (without f q)) ;;
   mappedAnd <- mapM (fun q' => remove_at_depth n q' f) ands ;;
   Some (rebuilt (others q f) (filter nonempty mappedOr) (filter nonempty mappedAnd))).
Proof.
  cbn [remove_at_depth]. rewrite omit_one, omit_two. fold (others q f).
  destruct (or_empty (get "$or" (without f q))) as [ors|]; [|reflexivity].
  cbn [bind].
  destruct (mapM (fun q' => remove_at_depth n q' f) ors) as [mo|]; [|reflexivity].
  cbn [bind].
  destruct (or_empty (get "$and" (without f q))) as [ands|]; [|reflexivity].
  cbn [bind].
  destruct (mapM (fun q' => remove_at_depth n q' f) ands) as [ma|]; [|reflexivity].
  cbn [bind]. f_equal. unfold rebuilt.
  generalize (filter nonempty mo) (filter nonempty ma). intros no na.
  assert (Ho : spread (others q f) (if nonempty no then [("$or", VArr no)] else [])
               = others q f ++ (if nonempty no then [("$or", VArr no)] else [])).
  { destruct no as [|e no].
    - now rewrite spread_nil, app_nil_r.
    - cbn [nonempty]. rewrite spread_cons, spread_nil.
      apply set_fresh; [apply others_no_or | reflexivity]. }
  rewrite Ho. clear Ho.
  destruct na as [|e na].
  - cbn [nonempty]. now rewrite spread_nil, app_nil_r.
  - cbn [nonempty]. rewrite spread_cons, spread_nil, set_fresh;
      [symmetry; apply app_assoc | | reflexivity].
    rewrite has_key_app, others_no_and.
    now destruct no.
Qed.

Lemma get_rebuilt_or base no na :
  has_key "$or" base = false ->
  get "$or" (rebuilt base no na) = if nonempty no then Some (VArr no) else None.
Proof.
  intros H. apply has_key_false_get in H.
  unfold rebuilt. rewrite !get_app, H.
  destruct (nonempty no); simpl; [reflexivity|].
  now destruct (nonempty na).
Qed.

Lemma get_rebuilt_and base no na :
  has_key "$and" base = false ->
  get "$and" (rebuilt base no na) = if nonempty na then Some (VArr na) else None.
Proof.
  intros H. apply has_key_false_get in H.
  unfold rebuilt. rewrite !get_app, H.
  destruct (nonempty no); simpl; now destruct (nonempty na).
Qed.

Lemma get_rebuilt_other k base no na :
  is_operator k = false -> get k (rebuilt base no na) = get k base.
Proof.
  unfold is_operator. intros H. apply orb_false_iff in H as [Ho Ha].
  unfold rebuilt. rewrite !get_app.
  destruct (get k base); [reflexivity|].
  rewrite String.eqb_sym in Ho, Ha.
  destruct (nonempty no); destruct (nonempty na); simpl; now rewrite ?Ho, ?Ha.
Qed.

Lemma or_empty_nonempty (l : list doc) :
  or_empty (if nonempty l then Some (VArr l) else None) = Some l.
Proof. now destruct l. Qed.

Lemma seq_of_rebuilt_or base no na :
  has_key "$or" base = false -> seq_of "$or" (rebuilt base no na) = no.
Proof. intros H. unfold seq_of. rewrite get_rebuilt_or by assumption. now destruct no. Qed.

Lemma seq_of_rebuilt_and base no na :
  has_key "$and" base = false -> seq_of "$and" (rebuilt base no na) = na.
Proof. intros H. unfold seq_of. rewrite get_rebuilt_and by assumption. now destruct na. Qed.

Lemma others_rebuilt base no na f :
  has_key "$or" base = false -> has_key "$and" base = false ->
  has_key f (rebuilt base no na) = false ->
  others (rebuilt base no na) f = base.
Proof.
  intros Ho Ha Hf. unfold others. rewrite (without_absent f) by assumption.
  unfold rebuilt. rewrite !without_app.
  rewrite (without_absent "$or" base) by assumption.
  rewrite (without_absent "$and" base) by assumption.
  destruct (nonempty no); destruct (nonempty na); simpl; now rewrite ?app_nil_r.
Qed.

Lemma remove_at_depth_S_inv n q f r :
  remove_at_depth (S n) q f = Some r ->
  exists ors mo ands ma,
    or_empty (get "$or" (without f q)) = Some ors /\
    Forall2 (fun a b => remove_at_depth n a f = Some b) ors mo /\
    or_empty (get "$and" (without f q)) = Some ands /\
    Forall2 (fun a b => remove_at_depth n a f = Some b) ands ma /\
    r = rebuilt (others q f) (filter nonempty mo) (filter nonempty ma).
Proof.
  rewrite remove_at_depth_S.
  destruct (or_empty (get "$or" (without f q))) as [ors|]; [|discriminate].
  cbn [bind].
  destruct (mapM _ ors) as [mo|] eqn:Mo; [|discriminate]. cbn [bind].
  destruct (or_empty (get "$and" (without f q))) as [ands|]; [|discriminate].
  cbn [bind].
  destruct (mapM _ ands) as [ma|] eqn:Ma; [|discriminate]. cbn [bind].
  intros [= <-]. exists ors, mo, ands, ma.
  apply mapM_Forall2 in Mo, Ma. auto.
Qed.

Lemma remove_at_depth_S_intro n q f ors mo ands ma :
  or_empty (get "$or" (without f q)) = Some ors ->
  Forall2 (fun a b => remove_at_depth n a f = Some b) ors mo ->
  or_empty (get "$and" (without f q)) = Some ands ->
  Forall2 (fun a b => remove_at_depth n a f = Some b) ands ma ->
  remove_at_depth (S n) q f
  = Some (rebuilt (others q f) (filter nonempty mo) (filter nonempty ma)).
Proof.
  intros Ho Mo Ha Ma. apply mapM_Forall2 in Mo, Ma.
  rewrite remove_at_depth_S, Ho. cbn [bind]. rewrite Mo. cbn [bind].
  rewrite Ha. cbn [bind]. rewrite Ma. reflexivity.
Qed.

Lemma Forall2_nil_l {A B : Type} (R : A -> B -> Prop) l : Forall2 R [] l -> l = [].
Proof. now inversion 1. Qed.

Lemma Forall2_image {A B : Type} (R : A -> B -> Prop) l l' b :
  Forall2 R l l' -> In b l' -> exists a, In a l /\ R a b.
Proof.
  induction 1 as [|a b' l l' Hab _ IH]; simpl; [tauto|].
  intros [<-|Hin].
  - exists a. auto.
  - destruct (IH Hin) as [a' [Ha' HR]]. exists a'. auto.
Qed.

(** The field itself is gone from the top level of every processed
    document, also when it is one of the operators. *)
Lemma rebuilt_no_field q f ors mo ands ma :
  or_empty (get "$or" (without f q)) = Some ors ->
  Forall2 (fun a b : doc => True) ors mo ->
  or_empty (get "$and" (without f q)) = Some ands ->
  Forall2 (fun a b : doc => True) ands ma ->
  has_key f (rebuilt (others q f) (filter nonempty mo) (filter nonempty ma)) = false.
Proof.
  intros Ho Mo Ha Ma. unfold rebuilt.
  rewrite !has_key_app, others_no_field. cbn [orb].
  apply orb_false_iff. split.
  - destruct (String.eqb_spec "$or" f) as [<-|N].
    + rewrite get_without_same in Ho. injection Ho as <-.
      apply Forall2_nil_l in Mo. now subst mo.
    + case_if; [|reflexivity].
      unfold has_key. simpl. apply String.eqb_neq in N. now rewrite N.
  - destruct (String.eqb_spec "$and" f) as [<-|N].
    + rewrite get_without_same in Ha. injection Ha as <-.
      apply Forall2_nil_l in Ma. now subst ma.
    + case_if; [|reflexivity].
      unfold has_key. simpl. apply String.eqb_neq in N. now rewrite N.
Qed.

Lemma Forall2_weaken {A B : Type} (R R' : A -> B -> Prop) l l' :
  (forall a b, R a b -> R' a b) -> Forall2 R l l' -> Forall2 R' l l'.
Proof. intros H. induction 1; constructor; auto. Qed.

Lemma remove_at_depth_no_field n q f r :
  remove_at_depth (S n) q f = Some r -> has_key f r = false.
Proof.
  intros H. apply remove_at_depth_S_inv in H
    as (ors & mo & ands & ma & Ho & Mo & Ha & Ma & ->).
  eapply rebuilt_no_field; eauto; eapply Forall2_weaken; eauto; cbv beta; auto.
Qed.

(** Every level that is processed is free of the field. *)
Lemma remove_at_depth_free_of n : forall q f r,
  remove_at_depth n q f = Some r -> free_of f n r = true.
Proof.
  induction n as [|n IH]; intros q f r H; [reflexivity|].
  cbn [free_of]. rewrite (remove_at_depth_no_field _ _ _ _ H). cbn [negb andb].
  apply remove_at_depth_S_inv in H
    as (ors & mo & ands & ma & Ho & Mo & Ha & Ma & ->).
  unfold subqueries.
  rewrite seq_of_rebuilt_or by apply others_no_or.
  rewrite seq_of_rebuilt_and by apply others_no_and.
  rewrite forallb_app. apply andb_true_iff. split; apply forallb_forall.
  - intros e He. apply filter_In in He as [He _].
    destruct (Forall2_image _ _ _ _ Mo He) as [a [_ Ha']]. eauto.
  - intros e He. apply filter_In in He as [He _].
    destruct (Forall2_image _ _ _ _ Ma He) as [a [_ Ha']]. eauto.
Qed.

(** Processing a result once more at the same depth changes nothing. *)
Lemma remove_at_depth_idempotent n : forall q f r,
  remove_at_depth n q f = Some r -> remove_at_depth n r f = Some r.
Proof.
  induction n as [|n IH]; intros q f r H; [reflexivity|].
  pose proof (remove_at_depth_no_field _ _ _ _ H) as Hf.
  apply remove_at_depth_S_inv in H
    as (ors & mo & ands & ma & Ho & Mo & Ha & Ma & ->).
  set (no := filter nonempty mo) in *. set (na := filter nonempty ma) in *.
  assert (Fo : Forall (fun e => remove_at_depth n e f = Some e) no).
  { apply Forall_forall. intros e He. apply filter_In in He as [He _].
    destruct (Forall2_image _ _ _ _ Mo He) as [a [_ Ha']]. eauto. }
  assert (Fa : Forall (fun e => remove_at_depth n e f = Some e) na).
  { apply Forall_forall. intros e He. apply filter_In in He as [He _].
    destruct (Forall2_image _ _ _ _ Ma He) as [a [_ Ha']]. eauto. }
  rewrite remove_at_depth_S.
  rewrite (without_absent f) by assumption.
  rewrite get_rebuilt_or by apply others_no_or.
  rewrite get_rebuilt_and by apply others_no_and.
  rewrite !or_empty_nonempty. cbn [bind].
  rewrite (mapM_fixed _ _ Fo), (mapM_fixed _ _ Fa). cbn [bind].
  rewrite others_rebuilt by (assumption || apply others_no_or || apply others_no_and).
  unfold no, na.
  rewrite (filter_nonempty_fixed (filter nonempty mo)) by apply forallb_filter_same.
  rewrite (filter_nonempty_fixed (filter nonempty ma)) by apply forallb_filter_same.
  reflexivity.
Qed.

(** ** Well-typed queries never throw *)

Lemma In_without k x k' d : In (k, x) (without k' d) -> In (k, x) d /\ k <> k'.
Proof.
  unfold without. intros H. apply filter_In in H as [H E]. simpl in E.
  split; [assumption|]. intros ->. now rewrite String.eqb_refl in E.
Qed.

Lemma query_document_get q k v :
  query_document q = true -> is_operator k = true -> get k q = Some v ->
  seq_typed v = true.
Proof.
  intros Hq Hk Hg. apply get_In in Hg.
  unfold query_document in Hq. rewrite forallb_forall in Hq.
  specialize (Hq _ Hg). cbv beta iota in Hq. now rewrite Hk in Hq.
Qed.

Lemma query_document_without q k :
  query_document q = true -> query_document (without k q) = true.
Proof.
  unfold query_document. rewrite !forallb_forall. intros H [k' x] Hin.
  apply In_without in Hin as [Hin _]. exact (H _ Hin).
Qed.

Lemma seq_typed_inv v : seq_typed v = true ->
  exists l, v = VArr l /\ forallb query_document l = true.
Proof. destruct v; try discriminate. intros H. eauto. Qed.

Lemma or_empty_typed q k :
  query_document q = true -> is_operator k = true ->
  exists l, or_empty (get k q) = Some l /\ seq_of k q = l /\
            forallb query_document l = true.
Proof.
  intros Hq Hk. unfold seq_of. destruct (get k q) as [v|] eqn:G.
  - destruct (seq_typed_inv v (query_document_get _ _ _ Hq Hk G)) as [l [-> Hl]].
    exists l. auto.
  - exists []. auto.
Qed.

Lemma remove_at_depth_total n : forall q f,
  query_document q = true -> exists r, remove_at_depth n q f = Some r.
Proof.
  induction n as [|n IH]; intros q f Hq; [simpl; eauto|].
  rewrite remove_at_depth_S.
  pose proof (query_document_without q f Hq) as Hq'.
  destruct (or_empty_typed _ "$or" Hq' eq_refl) as (ors & -> & _ & To).
  destruct (or_empty_typed _ "$and" Hq' eq_refl) as (ands & -> & _ & Ta).
  cbn [bind].
  destruct (mapM_total (fun q' => remove_at_depth n q' f) ors) as [mo ->].
  { apply Forall_forall. intros e He. rewrite forallb_forall in To. auto. }
  destruct (mapM_total (fun q' => remove_at_depth n q' f) ands) as [ma ->].
  { apply Forall_forall. intros e He. rewrite forallb_forall in Ta. auto. }
  cbn [bind]. eauto.
Qed.

(** ** The shape invariant *)

Lemma is_operator_others k x q f : In (k, x) (others q f) -> is_operator k = false.
Proof.
  unfold others. intros H.
  apply In_without in H as [H Na]. apply In_without in H as [_ No].
  unfold is_operator. apply orb_false_iff.
  split; now apply String.eqb_neq.
Qed.

Lemma valid_shape_app a b : valid_shape (a ++ b) = valid_shape a && valid_shape b.
Proof. apply forallb_app. Qed.

Lemma valid_shape_others q f : valid_shape (others q f) = true.
Proof.
  apply forallb_forall. intros [k x] H.
  now rewrite (is_operator_others _ _ _ _ H).
Qed.

Lemma valid_shape_get q k v :
  valid_shape q = true -> is_operator k = true -> get k q = Some v ->
  seq_valid v = true.
Proof.
  intros Hq Hk Hg. apply get_In in Hg.
  unfold valid_shape in Hq. rewrite forallb_forall in Hq.
  specialize (Hq _ Hg). cbv beta iota in Hq. now rewrite Hk in Hq.
Qed.

Lemma valid_shape_without q k :
  valid_shape q = true -> valid_shape (without k q) = true.
Proof.
  unfold valid_shape. rewrite !forallb_forall. intros H [k' x] Hin.
  apply In_without in Hin as [Hin _]. exact (H _ Hin).
Qed.

Lemma or_empty_valid q k l :
  valid_shape q = true -> is_operator k = true -> or_empty (get k q) = Some l ->
  forallb (fun e => nonempty e && valid_shape e) l = true.
Proof.
  intros Hq Hk. destruct (get k q) as [v|] eqn:G; simpl.
  - pose proof (valid_shape_get _ _ _ Hq Hk G) as Hv.
    destruct (truthy v); [|now intros [= <-]].
    destruct v; try discriminate. intros [= <-].
    rewrite seq_valid_arr in Hv. now apply andb_true_iff in Hv.
  - now intros [= <-].
Qed.

Lemma valid_shape_rebuilt base no na :
  valid_shape base = true ->
  forallb valid_shape no = true -> forallb valid_shape na = true ->
  valid_shape (rebuilt base (filter nonempty no) (filter nonempty na)) = true.
Proof.
  intros Hb Ho Ha. unfold rebuilt. rewrite !valid_shape_app, Hb. cbn [andb].
  assert (K : forall l, forallb valid_shape l = true ->
                forallb (fun e => nonempty e && valid_shape e) (filter nonempty l) = true).
  { intros l Hl. apply forallb_forall. intros e He.
    apply filter_In in He as [He ->]. rewrite forallb_forall in Hl. now apply Hl. }
  apply andb_true_iff. split.
  - case_if; [|reflexivity]. unfold valid_shape. cbn [forallb is_operator].
    change (seq_valid (VArr (filter nonempty no)) && true = true).
    rewrite seq_valid_arr, K by assumption.
    match goal with H : nonempty _ = true |- _ => now rewrite H end.
  - case_if; [|reflexivity]. unfold valid_shape. cbn [forallb is_operator].
    change (seq_valid (VArr (filter nonempty na)) && true = true).
    rewrite seq_valid_arr, K by assumption.
    match goal with H : nonempty _ = true |- _ => now rewrite H end.
Qed.

Lemma Forall2_forallb_image {A B : Type} (R : A -> B -> Prop) (p : A -> bool)
      (p' : B -> bool) l l' :
  (forall a b, R a b -> p a = true -> p' b = true) ->
  Forall2 R l l' -> forallb p l = true -> forallb p' l' = true.
Proof.
  intros H. induction 1 as [|a b l l' Hab _ IH]; simpl; [reflexivity|].
  intros Hp. apply andb_true_iff in Hp as [Ha Hl].
  rewrite (H _ _ Hab Ha). now apply IH.
Qed.

(** A valid query stays valid, whatever the depth. *)
Lemma remove_at_depth_valid n : forall q f r,
  remove_at_depth n q f = Some r -> valid_shape q = true -> valid_shape r = true.
Proof.
  induction n as [|n IH]; intros q f r H Hq; [now injection H as <-|].
  apply remove_at_depth_S_inv in H
    as (ors & mo & ands & ma & Ho & Mo & Ha & Ma & ->).
  pose proof (valid_shape_without q f Hq) as Hq'.
  apply (or_empty_valid _ "$or" _ Hq' eq_refl) in Ho.
  apply (or_empty_valid _ "$and" _ Hq' eq_refl) in Ha.
  apply valid_shape_rebuilt; [apply valid_shape_others | |].
  - eapply Forall2_forallb_image; [|exact Mo|exact Ho].
    cbv beta. intros a b Hab Hv. apply andb_true_iff in Hv as [_ Hv]. eauto.
  - eapply Forall2_forallb_image; [|exact Ma|exact Ha].
    cbv beta. intros a b Hab Hv. apply andb_true_iff in Hv as [_ Hv]. eauto.
Qed.

(** Without any assumption on the query, the levels that are processed
    satisfy the invariant. *)
Lemma valid_to_rebuilt n q f no na :
  forallb (valid_to n) no = true -> forallb (valid_to n) na = true ->
  valid_to (S n) (rebuilt (others q f) (filter nonempty no) (filter nonempty na)) = true.
Proof.
  intros Ho Ha. unfold rebuilt. cbn [valid_to]. rewrite !forallb_app.
  assert (K : forall l, forallb (valid_to n) l = true ->
                forallb (fun e => nonempty e && valid_to n e) (filter nonempty l) = true).
  { intros l Hl. apply forallb_forall. intros e He.
    apply filter_In in He as [He ->]. rewrite forallb_forall in Hl. now apply Hl. }
  repeat (apply andb_true_iff; split).
  - apply forallb_forall. intros [k x] H.
    now rewrite (is_operator_others _ _ _ _ H).
  - case_if; [|reflexivity]. cbn [forallb]. change (is_operator "$or") with true.
    cbv iota. rewrite K by assumption.
    match goal with H : nonempty _ = true |- _ => now rewrite H end.
  - case_if; [|reflexivity]. cbn [forallb]. change (is_operator "$and") with true.
    cbv iota. rewrite K by assumption.
    match goal with H : nonempty _ = true |- _ => now rewrite H end.
Qed.

Lemma Forall2_forallb_right {A B : Type} (R : A -> B -> Prop) (p : B -> bool) l l' :
  (forall a b, R a b -> p b = true) -> Forall2 R l l' -> forallb p l' = true.
Proof.
  intros H. induction 1 as [|a b l l' Hab _ IH]; simpl; [reflexivity|].
  now rewrite (H _ _ Hab).
Qed.

Lemma remove_at_depth_valid_to n : forall q f r,
  remove_at_depth n q f = Some r -> valid_to n r = true.
Proof.
  induction n as [|n IH]; intros q f r H; [reflexivity|].
  apply remove_at_depth_S_inv in H
    as (ors & mo & ands & ma & Ho & Mo & Ha & Ma & ->).
  apply valid_to_rebuilt.
  - eapply Forall2_forallb_right; [|exact Mo]. cbv beta. eauto.
  - eapply Forall2_forallb_right; [|exact Ma]. cbv beta. eauto.
Qed.

(** ** Removing a field that does not occur *)

Lemma opt_rel_same o : opt_rel same_value o o.
Proof. destruct o; constructor. apply same_refl. Qed.

Lemma same_doc_nonempty d d' : same_doc d' d -> nonempty d = true -> nonempty d' = true.
Proof.
  unfold same_doc. intros H Hd. inversion H as [v E1 E2 | p p' Hk E1 E2 | ]; subst.
  - assumption.
  - destruct d as [|[k x] d]; [discriminate|].
    specialize (Hk k). cbn [get] in Hk. rewrite String.eqb_refl in Hk.
    inversion Hk as [|a b _ Ea Eb]. destruct d'; [discriminate | reflexivity].
Qed.

(** Documents that are the same read the same under every key. *)
Lemma same_doc_get d d' k : same_doc d d' -> opt_rel same_value (get k d) (get k d').
Proof.
  unfold same_doc. intros H. inversion H as [v E1 E2 | p p' Hk E1 E2 | ]; subst.
  - apply opt_rel_same.
  - apply Hk.
Qed.

Lemma same_doc_has_key d d' k : same_doc d d' -> has_key k d = has_key k d'.
Proof.
  intros H. pose proof (same_doc_get _ _ k H) as Hk.
  inversion Hk as [E1 E2 | a b Hab E1 E2].
  - symmetry in E1, E2. apply has_key_false_get in E1, E2. congruence.
  - assert (H1 : has_key k d = true) by (apply has_key_true_get; eauto).
    assert (H2 : has_key k d' = true) by (apply has_key_true_get; eauto).
    congruence.
Qed.

Example same_doc_reordered :
  same_doc [("a", VNum 1); ("b", VNum 2)] [("b", VNum 2); ("a", VNum 1)].
Proof.
  apply same_obj. intros k. cbn [get].
  destruct (String.eqb_spec "a" k) as [<-|Na]; [repeat constructor|].
  destruct (String.eqb_spec "b" k) as [<-|Nb]; [repeat constructor|].
  constructor.
Qed.

Example same_doc_distinguishes :
  ~ same_doc [("a", VNum 1)] [("a", VNum 2)] /\ ~ same_doc [("a", VNum 1)] [].
Proof.
  split; intros H.
  - pose proof (same_doc_get _ _ "a" H) as Hk. cbn in Hk.
    inversion Hk as [|a b Hab E1 E2]; subst. inversion Hab.
  - pose proof (same_doc_has_key _ _ "a" H) as Hk. discriminate.
Qed.

Lemma Forall2_length_nonempty {A B : Type} (R : A -> B -> Prop) l l' :
  Forall2 R l l' -> nonempty l = nonempty l'.
Proof. now destruct 1. Qed.

(** What one sequence of a valid, well-typed query that is free of the field
    becomes, given the statement for its elements. *)
Lemma noop_sequence (g : doc -> option doc) (l : list doc) :
  Forall (fun e => nonempty e = true /\ exists e', g e = Some e' /\ same_doc e' e) l ->
  exists m, mapM g l = Some m /\ filter nonempty m = m /\ Forall2 same_doc m l.
Proof.
  induction 1 as [|e l (Hne & e' & He & Hs) _ (m & Hm & Hf & Hs')].
  - exists []. repeat split. constructor.
  - exists (e' :: m). cbn [mapM]. rewrite He. cbn [bind]. rewrite Hm. cbn [bind].
    repeat split.
    + cbn [filter]. rewrite (same_doc_nonempty _ _ Hs Hne). now rewrite Hf.
    + now constructor.
Qed.

Lemma remove_at_depth_noop n : forall q f,
  query_document q = true -> valid_shape q = true -> free_of f n q = true ->
  exists r, remove_at_depth n q f = Some r /\ same_doc r q.
Proof.
  induction n as [|n IH]; intros q f Tq Vq Fq.
  { exists q. split; [reflexivity | apply same_refl]. }
  cbn [free_of] in Fq. apply andb_true_iff in Fq as [Hf Fs].
  apply negb_true_iff in Hf.
  unfold subqueries in Fs. rewrite forallb_app in Fs.
  apply andb_true_iff in Fs as [Fo Fa].
  destruct (or_empty_typed _ "$or" Tq eq_refl) as (ors & Eo & So & To).
  destruct (or_empty_typed _ "$and" Tq eq_refl) as (ands & Ea & Sa & Ta).
  pose proof (or_empty_valid _ "$or" _ Vq eq_refl Eo) as Vo.
  pose proof (or_empty_valid _ "$and" _ Vq eq_refl Ea) as Va.
  rewrite So in Fo. rewrite Sa in Fa.
  assert (K : forall l, forallb query_document l = true ->
                forallb (fun e => nonempty e && valid_shape e) l = true ->
                forallb (free_of f n) l = true ->
                exists m, mapM (fun q' => remove_at_depth n q' f) l = Some m /\
                          filter nonempty m = m /\ Forall2 same_doc m l).
  { intros l Tl Vl Fl. apply noop_sequence. apply Forall_forall. intros e He.
    rewrite forallb_forall in Tl, Vl, Fl.
    specialize (Vl _ He). apply andb_true_iff in Vl as [Ne Ve].
    split; [assumption|]. apply IH; auto. }
  destruct (K _ To Vo Fo) as (mo & Mo & Fmo & Smo).
  destruct (K _ Ta Va Fa) as (ma & Ma & Fma & Sma).
  exists (rebuilt (others q f) mo ma). split.
  - rewrite remove_at_depth_S, (without_absent f q Hf), Eo. cbn [bind].
    rewrite Mo. cbn [bind]. rewrite Ea. cbn [bind]. rewrite Ma. cbn [bind].
    now rewrite Fmo, Fma.
  - apply same_obj. intros k.
    destruct (String.eqb_spec k "$or") as [->|No].
    { rewrite get_rebuilt_or by apply others_no_or.
      rewrite (Forall2_length_nonempty _ _ _ Smo).
      unfold seq_of in So. destruct (get "$or" q) as [v|] eqn:G.
      - destruct (seq_typed_inv v (query_document_get _ "$or" _ Tq eq_refl G))
          as [l [-> _]]. subst l.
        pose proof (valid_shape_get _ "$or" _ Vq eq_refl G) as Hv.
        rewrite seq_valid_arr in Hv. apply andb_true_iff in Hv as [-> _].
        constructor. now apply same_arr.
      - subst ors. constructor. }
    destruct (String.eqb_spec k "$and") as [->|Na].
    { rewrite get_rebuilt_and by apply others_no_and.
      rewrite (Forall2_length_nonempty _ _ _ Sma).
      unfold seq_of in Sa. destruct (get "$and" q) as [v|] eqn:G.
      - destruct (seq_typed_inv v (query_document_get _ "$and" _ Tq eq_refl G))
          as [l [-> _]]. subst l.
        pose proof (valid_shape_get _ "$and" _ Vq eq_refl G) as Hv.
        rewrite seq_valid_arr in Hv. apply andb_true_iff in Hv as [-> _].
        constructor. now apply same_arr.
      - subst ands. constructor. }
    assert (Hk : is_operator k = false).
    { unfold is_operator. apply orb_false_iff. split; now apply String.eqb_neq. }
    rewrite get_rebuilt_other, get_others, Hk by assumption. cbn [orb].
    destruct (String.eqb_spec f k) as [->|Nf].
    + apply has_key_false_get in Hf. rewrite Hf. constructor.
    + apply opt_rel_same.
Qed.

(** ** Defining and spreading properties *)

Lemma In_replace_value kx k v d :
  In kx (replace_value k v d) -> kx = (k, v) \/ In kx d.
Proof.
  induction d as [|[k0 x] d IH]; simpl; [tauto|].
  destruct (k0 =? k); simpl; intuition.
Qed.

Lemma In_insert_index kx n k v d :
  In kx (insert_index n k v d) -> kx = (k, v) \/ In kx d.
Proof.
  induction d as [|[k0 x] d IH]; simpl; [intuition|].
  destruct (index_of k0) as [m|]; [destruct (m <? n)%N|]; simpl; intuition.
Qed.

Lemma In_set kx k v d : In kx (set k v d) -> kx = (k, v) \/ In kx d.
Proof.
  unfold set. destruct (has_key k d); [apply In_replace_value|].
  destruct (index_of k); [apply In_insert_index|].
  intros H. apply in_app_or in H. simpl in H. intuition.
Qed.

Lemma In_spread kx d c : In kx (spread d c) -> In kx c \/ In kx d.
Proof.
  revert d. induction c as [|[k v] c IH]; intros d; [now right|].
  rewrite spread_cons. intros H. apply IH in H as [H|H]; [left; now right|].
  apply In_set in H as [->|H]; [left; now left | now right].
Qed.

Lemma valid_shape_set k v d :
  valid_shape d = true -> (is_operator k = true -> seq_valid v = true) ->
  valid_shape (set k v d) = true.
Proof.
  unfold valid_shape. rewrite !forallb_forall. intros Hd Hv [k' x] Hin.
  apply In_set in Hin as [[= -> ->]|Hin]; [|exact (Hd _ Hin)].
  destruct (is_operator k); auto.
Qed.

Lemma valid_shape_spread d c :
  valid_shape d = true -> valid_shape c = true -> valid_shape (spread d c) = true.
Proof.
  unfold valid_shape. rewrite !forallb_forall. intros Hd Hc kx Hin.
  apply In_spread in Hin as [Hin|Hin]; auto.
Qed.

Lemma keys_replace_value k v d : keys (replace_value k v d) = keys d.
Proof.
  induction d as [|[k0 x] d IH]; simpl; [reflexivity|].
  destruct (String.eqb_spec k0 k) as [->|N]; simpl; [reflexivity | now rewrite IH].
Qed.

Lemma keys_app a b : keys (a ++ b) = keys a ++ keys b.
Proof. apply map_app. Qed.

Lemma keys_set k v d :
  index_of k = None ->
  keys (set k v d) = if has_key k d then keys d else keys d ++ [k].
Proof.
  unfold set. intros ->. destruct (has_key k d).
  - apply keys_replace_value.
  - apply keys_app.
Qed.

Lemma has_key_In k d : has_key k d = true <-> In k (keys d).
Proof.
  unfold has_key. rewrite existsb_exists. split.
  - intros [k' [Hin E]]. apply String.eqb_eq in E. now subst.
  - intros H. exists k. split; [assumption | apply String.eqb_refl].
Qed.

Lemma has_key_set k' k v d : has_key k' (set k v d) = (k =? k') || has_key k' d.
Proof.
  destruct (has_key k' (set k v d)) eqn:E.
  - apply has_key_true_get in E as [x Hx]. rewrite get_set in Hx.
    destruct (k =? k'); [reflexivity|]. symmetry.
    apply has_key_true_get. eauto.
  - apply has_key_false_get in E. rewrite get_set in E.
    destruct (k =? k'); [discriminate|]. symmetry. now apply has_key_false_get.
Qed.

(** The keys of [{...d, ...c}] when [c] brings no array index: those of [d]
    in their order, then the new ones in the order of [c]. *)
Lemma keys_spread c : forall d,
  NoDup (keys c) ->
  forallb (fun k => negb (is_array_index k)) (keys c) = true ->
  keys (spread d c) = keys d ++ filter (fun k => negb (has_key k d)) (keys c).
Proof.
  induction c as [|[k v] c IH]; intros d Hnd Hix.
  - simpl. now rewrite app_nil_r.
  - cbn [keys map fst] in Hnd, Hix. fold (keys c) in Hnd, Hix.
    inversion Hnd as [|k0 ks Hnotin Hnd']; subst.
    cbn [forallb] in Hix. apply andb_true_iff in Hix as [Hk Hix].
    assert (Ik : index_of k = None).
    { unfold is_array_index in Hk. now destruct (index_of k). }
    rewrite spread_cons, IH by assumption.
    rewrite keys_set by assumption.
    cbn [keys map fst filter]. fold (keys c).
    assert (E : filter (fun k' => negb (has_key k' (set k v d))) (keys c)
                = filter (fun k' => negb (has_key k' d)) (keys c)).
    { apply filter_ext_in. intros k' Hin. rewrite has_key_set.
      destruct (String.eqb_spec k k') as [->|N]; [contradiction | reflexivity]. }
    rewrite E. destruct (has_key k d); cbn [negb]; [reflexivity|].
    now rewrite <- app_assoc.
Qed.

Lemma get_not_In k d : ~ In k (keys d) -> get k d = None.
Proof.
  intros H. apply has_key_false_get. destruct (has_key k d) eqn:E; [|reflexivity].
  apply has_key_In in E. contradiction.
Qed.

Lemma get_rev k d : NoDup (keys d) -> get k (rev d) = get k d.
Proof.
  induction d as [|[k0 x] d IH]; [reflexivity|].
  cbn [keys map fst]. fold (keys d). intros Hnd.
  inversion Hnd as [|k1 ks Hnotin Hnd']; subst.
  cbn [rev get]. rewrite get_app, IH by assumption. cbn [get].
  destruct (String.eqb_spec k0 k) as [->|N].
  - now rewrite (get_not_In _ _ Hnotin).
  - now destruct (get k d).
Qed.

(** ** Copying an object *)

(** Spreading an object into a fresh literal, as [{...queryRest, ...}] does
    first, enumerates it as the object itself is enumerated: the model may
    start from the list. *)
Lemma insert_index_last n k v d :
  Forall (fun k0 => exists m, index_of k0 = Some m /\ (m < n)%N) (keys d) ->
  insert_index n k v d = d ++ [(k, v)].
Proof.
  induction d as [|[k0 x] d IH]; [reflexivity|].
  cbn [keys map fst]. fold (keys d). intros H.
  inversion H as [|k1 ks (m & Hm & Hlt) Hd]; subst.
  cbn [insert_index]. rewrite Hm.
  apply N.ltb_lt in Hlt. rewrite Hlt. now rewrite IH.
Qed.

Lemma enumeration_order_before a k b :
  enumeration_order (a ++ k :: b) = true ->
  Forall (fun k0 => k0 <> k /\
                    match index_of k0, index_of k with
                    | Some m, Some n => (m < n)%N
                    | Some _, None => True
                    | None, Some _ => False
                    | None, None => True
                    end) a.
Proof.
  induction a as [|k0 a IH]; [constructor|].
  cbn [app enumeration_order]. intros H.
  apply andb_true_iff in H as [Hk0 Ha]. constructor; [|now apply IH].
  unfold later_keys_ok in Hk0. apply andb_true_iff in Hk0 as [Hnd Hix].
  split.
  - intros ->. apply negb_true_iff in Hnd.
    rewrite existsb_app in Hnd. cbn [existsb] in Hnd.
    rewrite String.eqb_refl, orb_true_r in Hnd. discriminate.
  - destruct (index_of k0) as [m|].
    + rewrite forallb_app in Hix. apply andb_true_iff in Hix as [_ Hix].
      cbn [forallb] in Hix. apply andb_true_iff in Hix as [Hix _].
      destruct (index_of k); [now apply N.ltb_lt | exact I].
    + rewrite forallb_app in Hix. apply andb_true_iff in Hix as [_ Hix].
      cbn [forallb] in Hix. apply andb_true_iff in Hix as [Hix _].
      unfold is_array_index in Hix. now destruct (index_of k).
Qed.

Lemma spread_appends d : forall acc,
  js_object (acc ++ d) = true -> spread acc d = acc ++ d.
Proof.
  induction d as [|[k v] d IH]; intros acc H.
  - now rewrite spread_nil, app_nil_r.
  - rewrite spread_cons.
    assert (E : set k v acc = acc ++ [(k, v)]).
    { unfold js_object in H. rewrite keys_app in H. cbn [keys map fst] in H.
      apply enumeration_order_before in H. rewrite Forall_forall in H.
      unfold set.
      assert (Hk : has_key k acc = false).
      { destruct (has_key k acc) eqn:E; [|reflexivity].
        apply has_key_In in E. now destruct (H _ E). }
      rewrite Hk. destruct (index_of k) as [n|] eqn:In; [|reflexivity].
      apply insert_index_last. apply Forall_forall. intros k0 Hk0.
      destruct (H _ Hk0) as [_ Hm]. destruct (index_of k0) as [m|]; [eauto | tauto]. }
    rewrite E, IH; rewrite <- app_assoc; [reflexivity | exact H].
Qed.

Lemma spread_copy d : js_object d = true -> spread [] d = d.
Proof. intros H. now apply (spread_appends d []). Qed.

Example js_object_examples :
  js_object [("0", VNull); ("7", VNull); ("b", VNull); ("a", VNull)] = true
  /\ js_object [("a", VNull); ("0", VNull)] = false
  /\ js_object [("7", VNull); ("0", VNull)] = false
  /\ js_object [("a", VNull); ("a", VNull)] = false
  /\ spread [] [("a", VNull); ("0", VNull)] = [("0", VNull); ("a", VNull)].
Proof. repeat split. Qed.

(** ** The results are objects *)

Lemma later_keys_ok_spec k later :
  later_keys_ok k later = true <-> Forall (before_ok k) later.
Proof.
  unfold later_keys_ok, before_ok. rewrite Forall_forall, andb_true_iff, negb_true_iff.
  split.
  - intros [Hnd Hix] k' Hin. split.
    + intros ->. assert (E : existsb (fun k' => k' =? k) later = true).
      { apply existsb_exists. exists k. split; [assumption | apply String.eqb_refl]. }
      congruence.
    + destruct (index_of k) as [n|]; rewrite forallb_forall in Hix;
        specialize (Hix _ Hin); unfold is_array_index in *;
        destruct (index_of k') as [m|]; try exact I; try discriminate.
      now apply N.ltb_lt.
  - intros H. split.
    + destruct (existsb (fun k' => k' =? k) later) eqn:E; [|reflexivity].
      apply existsb_exists in E as [k' [Hin E]]. apply String.eqb_eq in E. subst.
      now destruct (H _ Hin).
    + destruct (index_of k) as [n|]; apply forallb_forall; intros k' Hin;
        destruct (H _ Hin) as [_ Hm]; unfold is_array_index;
        destruct (index_of k') as [m|]; try reflexivity; try contradiction.
      now apply N.ltb_lt.
Qed.

Lemma enumeration_order_spec ks :
  enumeration_order ks = true <-> ForallOrdPairs before_ok ks.
Proof.
  induction ks as [|k ks IH]; cbn [enumeration_order].
  - split; [constructor | reflexivity].
  - rewrite andb_true_iff, later_keys_ok_spec, IH. split.
    + intros [H1 H2]. now constructor.
    + intros H. inversion H; subst. auto.
Qed.

Lemma ordered_filter {A : Type} (R : A -> A -> Prop) p l :
  ForallOrdPairs R l -> ForallOrdPairs R (filter p l).
Proof.
  induction 1 as [|a l Ha _ IH]; cbn [filter]; [constructor|].
  destruct (p a); [|assumption]. constructor; [|assumption].
  rewrite Forall_forall in *. intros x Hx. apply filter_In in Hx as [Hx _]. auto.
Qed.

Lemma ordered_snoc {A : Type} (R : A -> A -> Prop) l x :
  ForallOrdPairs R l -> Forall (fun a => R a x) l -> ForallOrdPairs R (l ++ [x]).
Proof.
  induction 1 as [|a l Ha _ IH]; cbn [app]; intros Hx.
  - repeat constructor.
  - inversion Hx; subst. constructor; [|auto].
    apply Forall_app. split; [assumption | now constructor].
Qed.

Lemma js_object_without k d : js_object d = true -> js_object (without k d) = true.
Proof.
  unfold js_object. rewrite keys_without, !enumeration_order_spec.
  apply ordered_filter.
Qed.

Lemma index_of_canonical k n :
  index_of k = Some n -> k = NilZero.string_of_uint (N.to_uint n).
Proof.
  unfold index_of. destruct (NilZero.uint_of_string k) as [u|]; [|discriminate].
  destruct (NilZero.string_of_uint (N.to_uint (N.of_uint u)) =? k) eqn:E;
    [|discriminate].
  destruct (N.of_uint u <? 4294967295)%N; [|discriminate].
  cbn [andb]. intros [= <-]. apply String.eqb_eq in E. now symmetry.
Qed.

Lemma In_keys_insert_index k' n k v d :
  In k' (keys (insert_index n k v d)) -> k' = k \/ In k' (keys d).
Proof.
  intros H. apply in_map_iff in H as [[k0 x] [<- H]].
  apply In_insert_index in H as [[= -> ->]|H]; [now left|].
  right. apply in_map_iff. now exists (k0, x).
Qed.

Lemma ordered_insert_index n k v d :
  index_of k = Some n -> ~ In k (keys d) ->
  ForallOrdPairs before_ok (keys d) ->
  ForallOrdPairs before_ok (keys (insert_index n k v d)).
Proof.
  intros Hk. induction d as [|[k0 x] d IH]; intros Hnotin Hord.
  - repeat constructor.
  - cbn [keys map fst] in Hnotin, Hord. fold (keys d) in Hnotin, Hord.
    inversion Hord as [|a l Hk0 Hd]; subst.
    assert (Nk0 : k0 <> k) by (intros ->; apply Hnotin; now left).
    assert (Nd : ~ In k (keys d)) by (intros H; apply Hnotin; now right).
    rewrite Forall_forall in Hk0.
    cbn [insert_index].
    destruct (index_of k0) as [m|] eqn:Hm; [destruct (m <? n)%N eqn:Hlt|].
    + cbn [keys map fst]. constructor; [|now apply IH].
      apply Forall_forall. intros k' Hin.
      apply In_keys_insert_index in Hin as [->|Hin]; [|auto].
      split; [congruence|]. rewrite Hm, Hk. now apply N.ltb_lt.
    + apply N.ltb_ge in Hlt.
      assert (Hnm : (n < m)%N).
      { destruct (N.eq_dec n m) as [->|]; [|lia].
        apply index_of_canonical in Hk, Hm. congruence. }
      cbn [keys map fst]. fold (keys d). constructor; [|assumption].
      constructor.
      * split; [assumption|]. now rewrite Hk, Hm.
      * apply Forall_forall. intros k' Hin. split; [congruence|].
        destruct (Hk0 _ Hin) as [_ H']. rewrite Hm in H'. rewrite Hk.
        destruct (index_of k'); [lia | exact I].
    + cbn [keys map fst]. fold (keys d). constructor; [|assumption].
      constructor.
      * split; [assumption|]. now rewrite Hk, Hm.
      * apply Forall_forall. intros k' Hin. split; [congruence|].
        destruct (Hk0 _ Hin) as [_ H']. rewrite Hm in H'. rewrite Hk.
        destruct (index_of k'); [contradiction | exact I].
Qed.

Lemma js_object_set k v d : js_object d = true -> js_object (set k v d) = true.
Proof.
  unfold js_object, set. intros H. destruct (has_key k d) eqn:Hk.
  - now rewrite keys_replace_value.
  - assert (Hnotin : ~ In k (keys d)).
    { intros Hin. apply has_key_In in Hin. congruence. }
    apply enumeration_order_spec in H. apply enumeration_order_spec.
    destruct (index_of k) as [n|] eqn:Ik.
    + now apply ordered_insert_index.
    + rewrite keys_app. apply ordered_snoc; [assumption|].
      cbn [keys map fst]. apply Forall_forall. intros k' Hin.
      split; [intros E; apply Hnotin; now rewrite E|].
      rewrite Ik. now destruct (index_of k').
Qed.

Lemma js_object_spread c : forall d, js_object d = true -> js_object (spread d c) = true.
Proof.
  induction c as [|[k v] c IH]; intros d H; [assumption|].
  rewrite spread_cons. apply IH. now apply js_object_set.
Qed.

Lemma js_object_omit fields : forall d, js_object d = true -> js_object (omit d fields) = true.
Proof.
  induction fields as [|f fields IH]; intros d H; cbn [omit].
  - now apply js_object_without.
  - destruct (nonempty fields); [apply IH|]; now apply js_object_without.
Qed.

(** Both operations return objects when they are given objects. *)
Lemma remove_at_depth_js_object n q f r :
  js_object q = true -> remove_at_depth n q f = Some r -> js_object r = true.
Proof.
  intros H. destruct n as [|n]; cbn [remove_at_depth]; [now intros [= <-]|].
  destruct (or_empty _) as [ors|]; [|discriminate]. cbn [bind].
  destruct (mapM _ ors) as [mo|]; [|discriminate]. cbn [bind].
  destruct (or_empty _) as [ands|]; [|discriminate]. cbn [bind].
  destruct (mapM _ ands) as [ma|]; [|discriminate]. cbn [bind].
  intros [= <-]. do 2 apply js_object_spread.
  apply (js_object_omit ["$or"; "$and"]), (js_object_omit [f]), H.
Qed.

Lemma addOrClause_js_object q c r :
  js_object q = true -> addOrClause q c = Some r -> js_object r = true.
Proof.
  intros H. unfold addOrClause.
  assert (K : forall x, js_object (set "$and" x (without "$or" q)) = true).
  { intros x. now apply js_object_set, js_object_without. }
  assert (L : forall r',
             (if truthy_opt (get "$and" (without "$or" q))
              then ands <- or_empty (get "$and" (without "$or" q)) ;;
                   Some (set "$and" (VArr (ands ++ [c])) (without "$or" q))
              else Some (spread q c)) = Some r' -> js_object r' = true).
  { intros r'. destruct (truthy_opt _).
    - destruct (or_empty _); [|discriminate]. cbn [bind]. intros [= <-]. apply K.
    - intros [= <-]. now apply js_object_spread. }
  destruct (get "$or" q) as [orv|]; [|apply L].
  destruct (truthy orv); [|apply L].
  destruct (or_empty _); [|discriminate]. cbn [bind]. intros [= <-]. apply K.
Qed.

(** ** KeyOmitter: the contract of [omit] *)

Lemma omit_filter fields : forall d,
  fields <> [] ->
  omit d fields = filter (fun kv => negb (existsb (fun f => f =? fst kv) fields)) d.
Proof.
  induction fields as [|f fields IH]; intros d Hne; [congruence|].
  destruct fields as [|g fields].
  - rewrite omit_one. unfold without. apply filter_ext.
    intros [k x]. simpl. now rewrite orb_false_r, String.eqb_sym.
  - rewrite omit_cons by discriminate. rewrite IH by discriminate.
    unfold without. rewrite filter_twice. apply filter_ext.
    intros [k x]. cbn [fst]. rewrite (String.eqb_sym k f).
    change (existsb (fun f0 => f0 =? k) (f :: g :: fields))
      with ((f =? k) || existsb (fun f0 => f0 =? k) (g :: fields)).
    now rewrite negb_orb.
Qed.

(** C8, amended: when [keys] is not empty, or the document has no
    property named "undefined", [omit document keys] is the document without
    the entries whose key is listed, the others unchanged and in their
    order; a listed key that is absent is ignored; with the empty list and no
    "undefined" property the result equals the document. *)
Theorem omit_contract (document : doc) (fields : list string) :
  fields <> [] \/ has_key "undefined" document = false ->
  omit document fields
  = filter (fun kv => negb (existsb (fun f => f =? fst kv) fields)) document
  /\ (forall k, get k (omit document fields)
                = if existsb (fun f => f =? k) fields then None else get k document)
  /\ (fields = [] -> omit document fields = document).
Proof.
  intros H. destruct fields as [|f fields].
  - destruct H as [H|H]; [congruence|].
    cbn [omit existsb negb]. rewrite (without_absent _ _ H).
    repeat split; try reflexivity.
    induction document as [|kv d IH]; [reflexivity|].
    rewrite has_key_app with (a := [kv]) (b := d) in H.
    apply orb_false_iff in H as [_ H]. cbn [filter]. now rewrite <- IH.
  - repeat split.
    + apply omit_filter. discriminate.
    + intros k. apply get_omit. discriminate.
    + discriminate.
Qed.

Lemma omit_contract_witness :
  (["hello"] <> [] \/
   has_key "undefined" [("hello", VStr "value"); ("foo", VStr "bar")] = false)
  /\ omit [("hello", VStr "value"); ("foo", VStr "bar")] ["hello"]
     = filter (fun kv => negb (existsb (fun f => f =? fst kv) ["hello"]))
         [("hello", VStr "value"); ("foo", VStr "bar")].
Proof.
  split.
  - left. discriminate.
  - apply (omit_contract [("hello", VStr "value"); ("foo", VStr "bar")] ["hello"]).
    left. discriminate.
Defined.

(** C8 as stated fails: with the empty list of keys, [omit] drops the
    property named "undefined", so the result is no copy of the document. *)
Lemma omit_empty_list_not_a_copy :
  omit [("undefined", VNum 1); ("a", VNum 2)] [] = [("a", VNum 2)]
  /\ omit [("undefined", VNum 1); ("a", VNum 2)] []
     <> [("undefined", VNum 1); ("a", VNum 2)]
  /\ existsb (fun f => f =? "undefined") [] = false
  /\ get "undefined" [("undefined", VNum 1); ("a", VNum 2)] = Some (VNum 1)
  /\ get "undefined" (omit [("undefined", VNum 1); ("a", VNum 2)] []) = None.
Proof. repeat split; try reflexivity. discriminate. Qed.

(** ** FieldReferenceRemover: the depth guard *)

(** The two equations of the source, over the integer [maxDepth]. *)
Lemma removeFieldClausesFromQuery_guard q f d :
  (d <= 0)%Z -> removeFieldClausesFromQuery q f d = Some q.
Proof.
  intros H. unfold removeFieldClausesFromQuery.
  replace (Z.to_nat d) with O by lia. reflexivity.
Qed.

Lemma removeFieldClausesFromQuery_step q f d :
  (0 < d)%Z ->
  removeFieldClausesFromQuery q f d =
  (let filteredTopLevel := omit q [f] in
   ors <- or_empty (get "$or" filteredTopLevel) ;;
   mappedOr <- mapM (fun q' => removeFieldClausesFromQuery q' f (d - 1)) ors ;;
   let newOr := filter nonempty mappedOr in
   ands <- or_empty (get "$and" filteredTopLevel) ;;
   mappedAnd <- mapM (fun q' => removeFieldClausesFromQuery q' f (d - 1)) ands ;;
   let newAnd := filter nonempty mappedAnd in
   Some (spread
           (spread (omit filteredTopLevel ["$or"; "$and"])
                   (if nonempty newOr then [("$or", VArr newOr)] else []))
           (if nonempty newAnd then [("$and", VArr newAnd)] else []))).
Proof.
  intros H. unfold removeFieldClausesFromQuery.
  replace (Z.to_nat d) with (S (Z.to_nat (d - 1))) by lia. reflexivity.
Qed.

(** C5: at [maxDepth <= 0] the query comes back exactly as it was given,
    the field at its top level included. *)
Theorem depth_bound_passthrough (q : doc) (f : string) (maxDepth : Z) :
  (maxDepth <= 0)%Z ->
  removeFieldReferences q f (Some maxDepth) = Some q.
Proof. apply removeFieldClausesFromQuery_guard. Qed.

Lemma depth_bound_passthrough_witness :
  (0 <= 0)%Z
  /\ removeFieldReferences [("hello", VStr "value")] "hello" (Some 0%Z)
     = Some [("hello", VStr "value")].
Proof.
  split.
  - lia.
  - apply (depth_bound_passthrough [("hello", VStr "value")] "hello" 0). lia.
Defined.

(** ** FieldReferenceRemover: what is removed *)

(** C2 as stated fails at [maxDepth = 0]: the field stays at the top level. *)
Lemma field_remains_at_depth_zero :
  exists r,
    removeFieldReferences [("hello", VStr "value")] "hello" (Some 0%Z) = Some r
    /\ has_key "hello" r = true.
Proof. exists [("hello", VStr "value")]. split; reflexivity. Qed.

Lemma removed_within_depth (q : doc) (f : string) (maxDepth : Z) :
  query_document q = true -> (1 <= maxDepth)%Z ->
  exists r,
    removeFieldReferences q f (Some maxDepth) = Some r
    /\ has_key f r = false
    /\ free_of f (Z.to_nat maxDepth) r = true.
Proof.
  intros Tq Hd. unfold removeFieldReferences, removeFieldClausesFromQuery.
  destruct (remove_at_depth_total (Z.to_nat maxDepth) q f Tq) as [r Hr].
  exists r. split; [assumption|]. split.
  - destruct (Z.to_nat maxDepth) as [|n] eqn:E; [lia|].
    eapply remove_at_depth_no_field; eauto.
  - eapply remove_at_depth_free_of; eauto.
Qed.

(** C2, amended: for [maxDepth >= 1] the call returns, and its result has no
    key [fieldName] at the top level nor in the sub-documents of the
    [maxDepth - 1] nesting levels below it. *)
Theorem field_removed_within_depth (q : doc) (f : string) (maxDepth : Z) :
  query_document q = true -> (1 <= maxDepth)%Z ->
  exists r,
    removeFieldReferences q f (Some maxDepth) = Some r
    /\ has_key f r = false
    /\ free_of f (Z.to_nat maxDepth) r = true.
Proof. apply removed_within_depth. Qed.

Lemma field_removed_within_depth_witness :
  query_document nested_hello = true /\ (1 <= 2)%Z
  /\ exists r,
       removeFieldReferences nested_hello "hello" (Some 2%Z) = Some r
       /\ has_key "hello" r = false
       /\ free_of "hello" (Z.to_nat 2) r = true.
Proof.
  split; [reflexivity|]. split; [lia|].
  apply (field_removed_within_depth nested_hello "hello" 2); [reflexivity | lia].
Defined.

(** Below the processed levels the field may remain. *)
Example field_remains_below_depth :
  removeFieldReferences nested_hello "hello" (Some 2%Z)
  = Some [("$and", VArr [[("$or", VArr [[("hello", VStr "value"); ("a", VNum 1)];
                                        [("hello", VNull)]])];
                         [("otherField", VStr "x")]])].
Proof. reflexivity. Qed.

(** C10 as stated fails: the sub-documents that the last recursive call
    reaches, with [maxDepth = 0], come back as they are. At [maxDepth = 1]
    the document one step below the top level keeps its [$or]. *)
Lemma operator_remains_at_the_bound :
  exists r e,
    removeFieldReferences or_below_and "$or" (Some 1%Z) = Some r
    /\ r = or_below_and
    /\ In e (subqueries r) /\ has_key "$or" e = true
    /\ free_of "$or" 2 r = false.
Proof.
  exists or_below_and, [("$or", VArr [[("a", VNum 1)]])].
  repeat split; try reflexivity. now left.
Qed.

(** C10, amended: the operator names are removable field names like any
    other. With [maxDepth >= 1], removing "$or" (or "$and") from a
    well-typed query leaves no such key at the top level nor in the
    sub-documents of the [maxDepth - 1] nesting levels below it; one at
    nesting level [maxDepth] or deeper remains. The clause at the top level
    is dropped by the omission, its sub-queries never visited: the result is
    that of the query without the clause. *)
Theorem operator_names_are_removable (q : doc) (maxDepth : Z) :
  query_document q = true -> (1 <= maxDepth)%Z ->
  (exists r,
     removeFieldReferences q "$or" (Some maxDepth) = Some r
     /\ has_key "$or" r = false
     /\ free_of "$or" (Z.to_nat maxDepth) r = true
     /\ removeFieldReferences (without "$or" q) "$or" (Some maxDepth) = Some r)
  /\
  (exists r,
     removeFieldReferences q "$and" (Some maxDepth) = Some r
     /\ has_key "$and" r = false
     /\ free_of "$and" (Z.to_nat maxDepth) r = true
     /\ removeFieldReferences (without "$and" q) "$and" (Some maxDepth) = Some r).
Proof.
  intros Tq Hd.
  assert (K : forall f, exists r,
     removeFieldReferences q f (Some maxDepth) = Some r
     /\ has_key f r = false
     /\ free_of f (Z.to_nat maxDepth) r = true
     /\ removeFieldReferences (without f q) f (Some maxDepth) = Some r).
  { intros f.
    destruct (removed_within_depth q f maxDepth Tq Hd) as (r & Hr & Hk & Hf).
    exists r. repeat split; try assumption.
    revert Hr. unfold removeFieldReferences, removeFieldClausesFromQuery.
    destruct (Z.to_nat maxDepth) as [|n] eqn:E; [lia|].
    rewrite !remove_at_depth_S. unfold others.
    now rewrite (without_absent f (without f q)) by apply has_key_without_same. }
  split; apply K.
Qed.

Lemma operator_names_are_removable_witness :
  query_document nested_hello = true /\ (1 <= 5)%Z
  /\ exists r,
       removeFieldReferences nested_hello "$or" (Some 5%Z) = Some r
       /\ has_key "$or" r = false
       /\ free_of "$or" (Z.to_nat 5) r = true
       /\ removeFieldReferences (without "$or" nested_hello) "$or" (Some 5%Z) = Some r.
Proof.
  split; [reflexivity|]. split; [lia|].
  apply (operator_names_are_removable nested_hello 5); [reflexivity | lia].
Defined.

Example remove_or_operator :
  removeFieldReferences
    [("a", VNum 1);
     ("$or", VArr [[("b", VNum 2)]]);
     ("$and", VArr [[("$or", VArr [[("c", VNum 3)]])]; [("d", VNum 4)]])]
    "$or" None
  = Some [("a", VNum 1); ("$and", VArr [[("d", VNum 4)]])].
Proof. reflexivity. Qed.

(** C4: at the default depth, removing the field from a result gives the
    same result again. *)
Theorem removal_idempotent (q : doc) (f : string) :
  query_document q = true ->
  exists r,
    removeFieldReferences q f None = Some r
    /\ removeFieldReferences r f None = Some r.
Proof.
  intros Tq. unfold removeFieldReferences, removeFieldClausesFromQuery.
  destruct (remove_at_depth_total (Z.to_nat 5) q f Tq) as [r Hr].
  exists r. split; [assumption|].
  eapply remove_at_depth_idempotent; eauto.
Qed.

Lemma removal_idempotent_witness :
  query_document nested_hello = true
  /\ exists r,
       removeFieldReferences nested_hello "hello" None = Some r
       /\ removeFieldReferences r "hello" None = Some r.
Proof.
  split; [reflexivity|].
  apply (removal_idempotent nested_hello "hello"). reflexivity.
Defined.

(** C7: on a well-typed query that satisfies the shape invariant, removing
    a field that occurs nowhere in the first [maxDepth] nesting levels
    returns the query itself, up to the order of keys. *)
Theorem absent_field_noop (q : doc) (f : string) (maxDepth : Z) :
  query_document q = true -> valid_shape q = true ->
  free_of f (Z.to_nat maxDepth) q = true ->
  exists r,
    removeFieldReferences q f (Some maxDepth) = Some r /\ same_doc r q.
Proof.
  intros Tq Vq Fq. unfold removeFieldReferences, removeFieldClausesFromQuery.
  now apply remove_at_depth_noop.
Qed.

Lemma absent_field_noop_witness :
  query_document nested_hello = true /\ valid_shape nested_hello = true
  /\ free_of "missing" (Z.to_nat 3) nested_hello = true
  /\ exists r,
       removeFieldReferences nested_hello "missing" (Some 3%Z) = Some r
       /\ same_doc r nested_hello.
Proof.
  split; [reflexivity|]. split; [reflexivity|]. split; [reflexivity|].
  apply (absent_field_noop nested_hello "missing" 3); reflexivity.
Defined.

(** The keys of a result come in the order of construction, so the result
    need not be the very same list. *)
Example absent_field_reorders_keys :
  removeFieldReferences
    [("$and", VArr [[("a", VNum 1)]]); ("$or", VArr [[("b", VNum 2)]]);
     ("c", VNum 3)] "missing" None
  = Some [("c", VNum 3); ("$or", VArr [[("b", VNum 2)]]);
          ("$and", VArr [[("a", VNum 1)]])].
Proof. reflexivity. Qed.

(** ** OrClauseMerger *)

Lemma get_and_without_or q : get "$and" (without "$or" q) = get "$and" q.
Proof. apply get_without_other. discriminate. Qed.

Lemma addOrClause_with_or q c orv :
  get "$or" q = Some orv -> truthy orv = true ->
  addOrClause q c =
  (ands <- or_empty (get "$and" q) ;;
   Some (set "$and" (VArr (ands ++ [[("$or", orv)]; c])) (without "$or" q))).
Proof.
  intros G T. unfold addOrClause. rewrite G, T, get_and_without_or. reflexivity.
Qed.

Lemma addOrClause_no_or q c :
  truthy_opt (get "$or" q) = false ->
  addOrClause q c =
  if truthy_opt (get "$and" q) then
    ands <- or_empty (get "$and" q) ;;
    Some (set "$and" (VArr (ands ++ [c])) (without "$or" q))
  else Some (spread q c).
Proof.
  intros T. unfold addOrClause. rewrite get_and_without_or.
  destruct (get "$or" q) as [orv|]; [|reflexivity].
  cbn [truthy_opt] in T. now rewrite T.
Qed.

Lemma addOrClause_with_and q c ands :
  has_key "$or" q = false -> get "$and" q = Some (VArr ands) ->
  addOrClause q c = Some (set "$and" (VArr (ands ++ [c])) q).
Proof.
  intros Ho Ga. rewrite addOrClause_no_or.
  - rewrite Ga. cbn. now rewrite (without_absent _ _ Ho).
  - apply has_key_false_get in Ho. now rewrite Ho.
Qed.

Lemma addOrClause_plain q c :
  has_key "$or" q = false -> has_key "$and" q = false ->
  addOrClause q c = Some (spread q c).
Proof.
  intros Ho Ha. apply has_key_false_get in Ho, Ha.
  rewrite addOrClause_no_or by now rewrite Ho.
  now rewrite Ha.
Qed.

Lemma addOrClause_total q c :
  query_document q = true -> exists r, addOrClause q c = Some r.
Proof.
  intros Tq.
  destruct (or_empty_typed q "$and" Tq eq_refl) as (ands & Ea & _).
  destruct (truthy_opt (get "$or" q)) eqn:T.
  - destruct (get "$or" q) as [orv|] eqn:G; [|discriminate].
    rewrite (addOrClause_with_or _ _ _ G T), Ea. cbn [bind]. eauto.
  - rewrite (addOrClause_no_or _ _ T), Ea. cbn [bind].
    destruct (truthy_opt (get "$and" q)); eauto.
Qed.

Lemma nonempty_app_r {A : Type} (l l' : list A) :
  nonempty l' = true -> nonempty (l ++ l') = true.
Proof. destruct l; [auto | reflexivity]. Qed.

Lemma addOrClause_valid q c r :
  valid_shape q = true -> valid_shape c = true -> nonempty c = true ->
  addOrClause q c = Some r -> valid_shape r = true.
Proof.
  intros Vq Vc Nc.
  destruct (truthy_opt (get "$or" q)) eqn:T.
  - destruct (get "$or" q) as [orv|] eqn:G; [|discriminate].
    rewrite (addOrClause_with_or _ _ _ G T).
    destruct (or_empty (get "$and" q)) as [ands|] eqn:Ea; [|discriminate].
    cbn [bind]. intros [= <-].
    apply valid_shape_set; [now apply valid_shape_without|]. intros _.
    rewrite seq_valid_arr, nonempty_app_r by reflexivity.
    rewrite forallb_app, (or_empty_valid _ "$and" _ Vq eq_refl Ea).
    cbn [forallb nonempty andb]. rewrite Nc, Vc. cbn [andb].
    unfold valid_shape at 1. cbn [forallb]. change (is_operator "$or") with true.
    cbv iota. now rewrite (valid_shape_get _ "$or" _ Vq eq_refl G).
  - rewrite (addOrClause_no_or _ _ T).
    destruct (truthy_opt (get "$and" q)).
    + destruct (or_empty (get "$and" q)) as [ands|] eqn:Ea; [|discriminate].
      cbn [bind]. intros [= <-].
      apply valid_shape_set; [now apply valid_shape_without|]. intros _.
      rewrite seq_valid_arr, nonempty_app_r by reflexivity.
      rewrite forallb_app, (or_empty_valid _ "$and" _ Vq eq_refl Ea).
      cbn [forallb nonempty andb]. now rewrite Nc, Vc.
    + intros [= <-]. now apply valid_shape_spread.
Qed.

(** ** The shape invariant of the results *)

(** C3 as stated fails: what lies at or below the depth bound is returned as
    it is, empty sequences included, and [addOrClause] embeds its arguments
    as they are. *)
Lemma invalid_shapes_survive :
  (exists r, removeFieldReferences [("$or", VArr [])] "hello" (Some 0%Z) = Some r
             /\ r = [("$or", VArr [])] /\ valid_shape r = false)
  /\ (exists r, removeFieldReferences empty_or_below_depth "hello" (Some 1%Z) = Some r
                /\ r = empty_or_below_depth /\ valid_shape r = false)
  /\ (exists r, addOrClause [("foo", VStr "bar")] [("$or", VArr [])] = Some r
                /\ r = [("foo", VStr "bar"); ("$or", VArr [])]
                /\ valid_shape r = false)
  /\ (exists r, addOrClause [("$and", VArr [[("foo", VStr "bar")]])] [] = Some r
                /\ r = [("$and", VArr [[("foo", VStr "bar")]; []])]
                /\ valid_shape r = false).
Proof. repeat split; eexists; repeat split; reflexivity. Qed.

(** C3, amended: on a well-typed query [removeFieldReferences] returns a
    document that satisfies the invariant in all the levels it processed,
    and in all levels when the query satisfied it; [addOrClause] returns a
    document that satisfies the invariant when the query and the clause
    satisfy it and the clause is not the empty document. *)
Theorem shape_invariant (q c : doc) (f : string) (maxDepth : Z) :
  query_document q = true ->
  (exists r,
     removeFieldReferences q f (Some maxDepth) = Some r
     /\ valid_to (Z.to_nat maxDepth) r = true
     /\ (valid_shape q = true -> valid_shape r = true))
  /\ (valid_shape q = true -> valid_shape c = true -> nonempty c = true ->
      exists r, addOrClause q c = Some r /\ valid_shape r = true).
Proof.
  intros Tq. split.
  - unfold removeFieldReferences, removeFieldClausesFromQuery.
    destruct (remove_at_depth_total (Z.to_nat maxDepth) q f Tq) as [r Hr].
    exists r. split; [assumption|]. split.
    + eapply remove_at_depth_valid_to; eassumption.
    + intros Vq. eapply remove_at_depth_valid; eassumption.
  - intros Vq Vc Nc. destruct (addOrClause_total q c Tq) as [r Hr].
    exists r. split; [assumption|]. now apply (addOrClause_valid q c r).
Qed.

Lemma shape_invariant_witness :
  query_document nested_hello = true
  /\ valid_shape nested_hello = true /\ valid_shape myOrClause = true
  /\ nonempty myOrClause = true
  /\ (exists r,
        removeFieldReferences nested_hello "hello" (Some 5%Z) = Some r
        /\ valid_to (Z.to_nat 5) r = true /\ valid_shape r = true)
  /\ (exists r, addOrClause nested_hello myOrClause = Some r /\ valid_shape r = true).
Proof.
  destruct (shape_invariant nested_hello myOrClause "hello" 5 eq_refl)
    as [(r & Hr & Ht & Hv) Ha].
  repeat (split; [reflexivity|]). split.
  - exists r. split; [exact Hr|]. split; [exact Ht|]. apply Hv. reflexivity.
  - apply Ha; reflexivity.
Defined.

(** ** OrClauseMerger: the three cases *)

(** C1: a query whose [$or] holds a sequence loses that key and gets as
    [$and] its former entries, then [{$or: <the former sequence>}], then the
    clause; every other key reads as before. *)
Theorem addOrClause_existing_or (query orClause : doc) (ors : list doc) :
  query_document query = true -> get "$or" query = Some (VArr ors) ->
  exists r,
    addOrClause query orClause = Some r
    /\ has_key "$or" r = false
    /\ get "$and" r
       = Some (VArr (seq_of "$and" query ++ [[("$or", VArr ors)]; orClause]))
    /\ (forall k, is_operator k = false -> get k r = get k query)
    /\ keys r = keys (without "$or" query)
                  ++ (if has_key "$and" query then [] else ["$and"]).
Proof.
  intros Tq G.
  destruct (or_empty_typed query "$and" Tq eq_refl) as (ands & Ea & Sa & _).
  rewrite (addOrClause_with_or _ _ _ G eq_refl), Ea, Sa. cbn [bind].
  eexists. split; [reflexivity|]. repeat split.
  - rewrite has_key_set, has_key_without_same. reflexivity.
  - rewrite get_set. reflexivity.
  - intros k Hk. unfold is_operator in Hk. apply orb_false_iff in Hk as [Ho Ha].
    rewrite get_set, (String.eqb_sym "$and" k), Ha.
    apply get_without_other. now apply String.eqb_neq.
  - rewrite keys_set by reflexivity.
    rewrite (has_key_without_other "$and" "$or") by discriminate.
    destruct (has_key "$and" query); [now rewrite app_nil_r | reflexivity].
Qed.

Lemma addOrClause_existing_or_witness :
  query_document or_and_query = true
  /\ get "$or" or_and_query = Some (VArr [[("hello", VStr "world")]])
  /\ exists r,
       addOrClause or_and_query myOrClause = Some r
       /\ has_key "$or" r = false
       /\ get "$and" r
          = Some (VArr (seq_of "$and" or_and_query
                          ++ [[("$or", VArr [[("hello", VStr "world")]])]; myOrClause]))
       /\ (forall k, is_operator k = false -> get k r = get k or_and_query)
       /\ keys r = keys (without "$or" or_and_query)
                     ++ (if has_key "$and" or_and_query then [] else ["$and"]).
Proof.
  split; [reflexivity|]. split; [reflexivity|].
  apply (addOrClause_existing_or or_and_query myOrClause [[("hello", VStr "world")]]);
    reflexivity.
Defined.

(** C6: without [$or], the case is chosen by the query alone, whatever the
    clause is. With an [$and] sequence the clause becomes its last element
    and nothing else changes; with neither operator the result is the spread
    of the query and the clause, where the clause wins on a common key. *)
Theorem addOrClause_without_or (query orClause : doc) :
  has_key "$or" query = false ->
  (forall ands, get "$and" query = Some (VArr ands) ->
     exists r,
       addOrClause query orClause = Some r
       /\ get "$and" r = Some (VArr (ands ++ [orClause]))
       /\ (forall k, k <> "$and" -> get k r = get k query)
       /\ keys r = keys query)
  /\ (has_key "$and" query = false ->
      exists r,
        addOrClause query orClause = Some r
        /\ r = spread query orClause
        /\ (NoDup (keys orClause) ->
            forall k, get k r = match get k orClause with
                                | Some v => Some v
                                | None => get k query
                                end)).
Proof.
  intros Ho. split.
  - intros ands Ga. rewrite (addOrClause_with_and _ _ _ Ho Ga).
    eexists. split; [reflexivity|]. repeat split.
    + rewrite get_set. reflexivity.
    + intros k Hk. rewrite get_set.
      destruct (String.eqb_spec "$and" k); [congruence | reflexivity].
    + rewrite keys_set by reflexivity.
      assert (H : has_key "$and" query = true) by (apply has_key_true_get; eauto).
      now rewrite H.
  - intros Ha. rewrite (addOrClause_plain _ _ Ho Ha).
    eexists. split; [reflexivity|]. split; [reflexivity|].
    intros Hnd k. now rewrite get_spread, get_rev.
Qed.

Lemma addOrClause_without_or_witness :
  has_key "$or" and_query = false
  /\ get "$and" and_query = Some (VArr [[("foo", VStr "bar")]; [("bar", VStr "baz")]])
  /\ (exists r,
        addOrClause and_query [("other", VNull)] = Some r
        /\ get "$and" r
           = Some (VArr ([[("foo", VStr "bar")]; [("bar", VStr "baz")]]
                           ++ [[("other", VNull)]]))
        /\ (forall k, k <> "$and" -> get k r = get k and_query)
        /\ keys r = keys and_query).
Proof.
  split; [reflexivity|]. split; [reflexivity|].
  apply (addOrClause_without_or and_query [("other", VNull)]); reflexivity.
Defined.

Example addOrClause_clause_without_or :
  addOrClause [("foo", VStr "bar")] [("foo", VNum 1); ("other", VNull)]
  = Some [("foo", VNum 1); ("other", VNull)]
  /\ addOrClause [("$and", VArr [[("foo", VStr "bar")]])] [("other", VNull)]
     = Some [("$and", VArr [[("foo", VStr "bar")]; [("other", VNull)]])].
Proof. split; reflexivity. Qed.

(** ** Key order *)

(** C9 as stated fails: [removeFieldReferences] writes [$or] before [$and],
    and [addOrClause] leaves the [$and] of the query where it was. *)
Lemma or_precedes_and :
  (exists r,
     removeFieldReferences
       [("$and", VArr [[("b", VNum 2)]]); ("a", VNum 0); ("$or", VArr [[("a", VNum 1)]])]
       "hello" (Some 1%Z) = Some r
     /\ keys r = ["a"; "$or"; "$and"] /\ ranks_ascend (keys r) = false)
  /\ (exists r,
        addOrClause [("$and", VArr [[("b", VNum 2)]]); ("foo", VStr "bar")] myOrClause
        = Some r
        /\ keys r = ["$and"; "foo"] /\ ranks_ascend (keys r) = false).
Proof. split; eexists; repeat split; reflexivity. Qed.

Lemma keys_others q f :
  keys (others q f) = filter (fun k => negb (is_operator k || (k =? f))) (keys q).
Proof.
  unfold others. rewrite !keys_without, !filter_twice. apply filter_ext.
  intros k. unfold is_operator.
  destruct (k =? f), (k =? "$or"), (k =? "$and"); reflexivity.
Qed.

Lemma keys_rebuilt base no na :
  keys (rebuilt base no na)
  = keys base ++ (if nonempty no then ["$or"] else [])
              ++ (if nonempty na then ["$and"] else []).
Proof.
  unfold rebuilt. rewrite !keys_app.
  now destruct (nonempty no), (nonempty na).
Qed.

Lemma has_key_rebuilt_or base no na :
  has_key "$or" base = false -> has_key "$or" (rebuilt base no na) = nonempty no.
Proof.
  intros H. unfold rebuilt. rewrite !has_key_app, H.
  now destruct (nonempty no), (nonempty na).
Qed.

Lemma has_key_rebuilt_and base no na :
  has_key "$and" base = false -> has_key "$and" (rebuilt base no na) = nonempty na.
Proof.
  intros H. unfold rebuilt. rewrite !has_key_app, H.
  now destruct (nonempty no), (nonempty na).
Qed.

Lemma keys_remove_at_depth n q f r :
  remove_at_depth (S n) q f = Some r ->
  keys r = filter (fun k => negb (is_operator k || (k =? f))) (keys q)
             ++ (if has_key "$or" r then ["$or"] else [])
             ++ (if has_key "$and" r then ["$and"] else []).
Proof.
  intros H. apply remove_at_depth_S_inv in H
    as (ors & mo & ands & ma & _ & _ & _ & _ & ->).
  rewrite has_key_rebuilt_or by apply others_no_or.
  rewrite has_key_rebuilt_and by apply others_no_and.
  now rewrite keys_rebuilt, keys_others.
Qed.

Lemma truthy_typed q k :
  query_document q = true -> is_operator k = true ->
  truthy_opt (get k q) = has_key k q.
Proof.
  intros Tq Hk. destruct (get k q) as [v|] eqn:G.
  - destruct (seq_typed_inv v (query_document_get _ _ _ Tq Hk G)) as [l [-> _]].
    symmetry. apply has_key_true_get. eauto.
  - symmetry. now apply has_key_false_get.
Qed.

Lemma keys_addOrClause q c r :
  query_document q = true -> NoDup (keys c) ->
  forallb (fun k => negb (is_array_index k)) (keys c) = true ->
  addOrClause q c = Some r ->
  keys r = if has_key "$or" q || has_key "$and" q
           then filter (fun k => negb (k =? "$or")) (keys q)
                  ++ (if has_key "$and" q then [] else ["$and"])
           else keys q ++ filter (fun k => negb (has_key k q)) (keys c).
Proof.
  intros Tq Hnd Hix.
  pose proof (truthy_typed q "$or" Tq eq_refl) as To.
  pose proof (truthy_typed q "$and" Tq eq_refl) as Ta.
  destruct (or_empty_typed q "$and" Tq eq_refl) as (ands & Ea & _).
  assert (K : forall x, keys (set "$and" x (without "$or" q))
                = filter (fun k => negb (k =? "$or")) (keys q)
                    ++ (if has_key "$and" q then [] else ["$and"])).
  { intros x. rewrite keys_set by reflexivity.
    rewrite (has_key_without_other "$and" "$or") by discriminate.
    rewrite keys_without.
    destruct (has_key "$and" q); [now rewrite app_nil_r | reflexivity]. }
  destruct (has_key "$or" q) eqn:Ho.
  - destruct (get "$or" q) as [orv|] eqn:G; [|discriminate].
    rewrite (addOrClause_with_or _ _ _ G To), Ea. cbn [bind orb].
    intros [= <-]. apply K.
  - rewrite (addOrClause_no_or _ _ To), Ta, Ea. cbn [bind orb].
    destruct (has_key "$and" q); intros [= <-]; [apply K|].
    now apply keys_spread.
Qed.

(** C9, amended: a result of [removeFieldReferences] at [maxDepth >= 1] has
    the keys of the query other than the field and the operators, in their
    order, then [$or], then [$and], each if it is kept. A result of
    [addOrClause] on a query with [$or] or [$and] has the keys of the query
    in their order but for [$or], and [$and] last if the query had none; on
    another query it has the keys of the query in their order, then the new
    keys of the clause in their order, provided none of these is an array
    index. *)
Theorem key_order (q c : doc) (f : string) (maxDepth : Z) :
  query_document q = true -> (1 <= maxDepth)%Z ->
  NoDup (keys c) -> forallb (fun k => negb (is_array_index k)) (keys c) = true ->
  (exists r,
     removeFieldReferences q f (Some maxDepth) = Some r
     /\ keys r = filter (fun k => negb (is_operator k || (k =? f))) (keys q)
                   ++ (if has_key "$or" r then ["$or"] else [])
                   ++ (if has_key "$and" r then ["$and"] else []))
  /\ (exists r,
        addOrClause q c = Some r
        /\ keys r = if has_key "$or" q || has_key "$and" q
                    then filter (fun k => negb (k =? "$or")) (keys q)
                           ++ (if has_key "$and" q then [] else ["$and"])
                    else keys q ++ filter (fun k => negb (has_key k q)) (keys c)).
Proof.
  intros Tq Hd Hnd Hix. split.
  - unfold removeFieldReferences, removeFieldClausesFromQuery.
    destruct (remove_at_depth_total (Z.to_nat maxDepth) q f Tq) as [r Hr].
    exists r. split; [assumption|].
    destruct (Z.to_nat maxDepth) as [|n] eqn:E; [lia|].
    eapply keys_remove_at_depth; eassumption.
  - destruct (addOrClause_total q c Tq) as [r Hr].
    exists r. split; [assumption|]. now apply keys_addOrClause.
Qed.

Lemma key_order_witness :
  query_document unordered_query = true /\ (1 <= 5)%Z
  /\ NoDup (keys myOrClause)
  /\ forallb (fun k => negb (is_array_index k)) (keys myOrClause) = true
  /\ (exists r,
        removeFieldReferences unordered_query "hello" (Some 5%Z) = Some r
        /\ keys r = filter (fun k => negb (is_operator k || (k =? "hello")))
                      (keys unordered_query)
                      ++ (if has_key "$or" r then ["$or"] else [])
                      ++ (if has_key "$and" r then ["$and"] else [])).
Proof.
  assert (Hnd : NoDup (keys myOrClause)).
  { repeat constructor; simpl; intuition. }
  split; [reflexivity|]. split; [lia|]. split; [exact Hnd|].
  split; [reflexivity|].
  apply (key_order unordered_query myOrClause "hello" 5);
    [reflexivity | lia | exact Hnd | reflexivity].
Defined.

Example key_order_examples :
  option_map keys (removeFieldReferences unordered_query "hello" None)
  = Some ["a"; "$or"; "$and"]
  /\ option_map keys (addOrClause unordered_query myOrClause)
     = Some ["$and"; "a"; "hello"]
  /\ option_map keys (addOrClause [("b", VNum 1); ("a", VNum 2)]
                                  [("c", VNum 3); ("a", VNum 4)])
     = Some ["b"; "a"; "c"]
  /\ option_map keys (addOrClause [("b", VNum 1)] [("1", VNum 3); ("0", VNum 4)])
     = Some ["0"; "1"; "b"].
Proof. repeat split. Qed.

(** * Further properties of the code *)

(** ** The removal on well-typed queries *)

Lemma seq_of_without k f q :
  seq_of k (without f q) = if f =? k then [] else seq_of k q.
Proof.
  unfold seq_of. destruct (String.eqb_spec f k) as [->|N].
  - now rewrite get_without_same.
  - rewrite get_without_other by congruence. reflexivity.
Qed.

Lemma or_empty_seq_of q k :
  query_document q = true -> is_operator k = true ->
  or_empty (get k q) = Some (seq_of k q)
  /\ forallb query_document (seq_of k q) = true.
Proof.
  intros Tq Hk. destruct (or_empty_typed q k Tq Hk) as (l & E & S & T).
  rewrite S. auto.
Qed.

Lemma mapM_map {A B : Type} (f : A -> option B) (g : A -> B) l :
  (forall a, In a l -> f a = Some (g a)) -> mapM f l = Some (map g l).
Proof.
  induction l as [|a l IH]; intros H; [reflexivity|].
  cbn [mapM map]. rewrite (H a) by now left. cbn [bind].
  rewrite IH by (intros; apply H; now right). reflexivity.
Qed.

Lemma remove_at_depth_strip n : forall q f,
  query_document q = true -> remove_at_depth n q f = Some (strip n f q).
Proof.
  induction n as [|n IH]; intros q f Tq; [reflexivity|].
  rewrite remove_at_depth_S. cbn [strip].
  pose proof (query_document_without q f Tq) as Tq'.
  destruct (or_empty_seq_of _ "$or" Tq' eq_refl) as [-> To].
  destruct (or_empty_seq_of _ "$and" Tq' eq_refl) as [-> Ta].
  cbn [bind]. rewrite forallb_forall in To, Ta.
  rewrite (mapM_map _ (strip n f)) by (intros; apply IH; auto). cbn [bind].
  rewrite (mapM_map _ (strip n f)) by (intros; apply IH; auto). reflexivity.
Qed.

Lemma query_document_others q f : query_document (others q f) = true.
Proof.
  apply forallb_forall. intros [k x] H.
  now rewrite (is_operator_others _ _ _ _ H).
Qed.

Lemma query_document_app a b :
  query_document (a ++ b) = query_document a && query_document b.
Proof. apply forallb_app. Qed.

Lemma query_document_rebuilt q f no na :
  forallb query_document no = true -> forallb query_document na = true ->
  query_document (rebuilt (others q f) no na) = true.
Proof.
  intros Ho Ha. unfold rebuilt.
  rewrite !query_document_app, query_document_others. cbn [andb].
  apply andb_true_iff. split.
  - destruct no as [|e no]; [reflexivity|]. cbn [nonempty].
    unfold query_document at 1. cbn [forallb].
    change (is_operator "$or") with true. cbv iota.
    now rewrite seq_typed_arr, Ho.
  - destruct na as [|e na]; [reflexivity|]. cbn [nonempty].
    unfold query_document at 1. cbn [forallb].
    change (is_operator "$and") with true. cbv iota.
    now rewrite seq_typed_arr, Ha.
Qed.

Lemma forallb_filter_map {A B : Type} (p : B -> bool) (c : B -> bool)
      (g : A -> B) (q : A -> bool) l :
  (forall a, q a = true -> p (g a) = true) ->
  forallb q l = true -> forallb p (filter c (map g l)) = true.
Proof.
  intros H Hl. apply forallb_forall. intros b Hb.
  apply filter_In in Hb as [Hb _]. apply in_map_iff in Hb as [a [<- Ha]].
  rewrite forallb_forall in Hl. auto.
Qed.

Lemma query_document_strip n : forall q f,
  query_document q = true -> query_document (strip n f q) = true.
Proof.
  induction n as [|n IH]; intros q f Tq; [assumption|].
  cbn [strip].
  pose proof (query_document_without q f Tq) as Tq'.
  destruct (or_empty_seq_of _ "$or" Tq' eq_refl) as [_ To].
  destruct (or_empty_seq_of _ "$and" Tq' eq_refl) as [_ Ta].
  apply query_document_rebuilt.
  - eapply forallb_filter_map; [|exact To]. intros a Ha. now apply IH.
  - eapply forallb_filter_map; [|exact Ta]. intros a Ha. now apply IH.
Qed.

Lemma query_document_set k v d :
  query_document d = true -> (is_operator k = true -> seq_typed v = true) ->
  query_document (set k v d) = true.
Proof.
  unfold query_document. rewrite !forallb_forall. intros Hd Hv [k' x] Hin.
  apply In_set in Hin as [[= -> ->]|Hin]; [|exact (Hd _ Hin)].
  destruct (is_operator k); auto.
Qed.

Lemma query_document_spread d c :
  query_document d = true -> query_document c = true ->
  query_document (spread d c) = true.
Proof.
  unfold query_document. rewrite !forallb_forall. intros Hd Hc kx Hin.
  apply In_spread in Hin as [Hin|Hin]; auto.
Qed.

Lemma addOrClause_typed q c r :
  query_document q = true -> query_document c = true ->
  addOrClause q c = Some r -> query_document r = true.
Proof.
  intros Tq Tc.
  destruct (or_empty_seq_of q "$and" Tq eq_refl) as [Ea Ta].
  destruct (truthy_opt (get "$or" q)) eqn:T.
  - destruct (get "$or" q) as [orv|] eqn:G; [|discriminate].
    rewrite (addOrClause_with_or _ _ _ G T), Ea. cbn [bind]. intros [= <-].
    apply query_document_set; [now apply query_document_without|]. intros _.
    rewrite seq_typed_arr, forallb_app, Ta. cbn [forallb andb].
    rewrite Tc, andb_true_r. unfold query_document. cbn [forallb].
    change (is_operator "$or") with true. cbv iota.
    now rewrite (query_document_get _ "$or" _ Tq eq_refl G).
  - rewrite (addOrClause_no_or _ _ T), Ea. cbn [bind].
    destruct (truthy_opt (get "$and" q)); intros [= <-].
    + apply query_document_set; [now apply query_document_without|]. intros _.
      rewrite seq_typed_arr, forallb_app, Ta. cbn [forallb andb]. now rewrite Tc.
    + now apply query_document_spread.
Qed.

(** X1: on a well-typed query [removeFieldReferences] returns, at every
    depth, and its result is a well-typed query again. *)
Theorem removal_keeps_typing (q : doc) (f : string) (maxDepth : option Z) :
  query_document q = true ->
  exists r, removeFieldReferences q f maxDepth = Some r /\ query_document r = true.
Proof.
  intros Tq. unfold removeFieldReferences, removeFieldClausesFromQuery.
  rewrite remove_at_depth_strip by assumption.
  eexists. split; [reflexivity|]. now apply query_document_strip.
Qed.

Lemma removal_keeps_typing_witness :
  query_document nested_hello = true
  /\ exists r, removeFieldReferences nested_hello "hello" None = Some r
               /\ query_document r = true.
Proof.
  split; [reflexivity|].
  apply (removal_keeps_typing nested_hello "hello" None). reflexivity.
Defined.

(** X2: on a well-typed query and a well-typed clause [addOrClause] returns
    a well-typed query. *)
Theorem addOrClause_keeps_typing (query orClause : doc) :
  query_document query = true -> query_document orClause = true ->
  exists r, addOrClause query orClause = Some r /\ query_document r = true.
Proof.
  intros Tq Tc. destruct (addOrClause_total query orClause Tq) as [r Hr].
  exists r. split; [assumption|]. now apply (addOrClause_typed query orClause r).
Qed.

Lemma addOrClause_keeps_typing_witness :
  query_document or_and_query = true /\ query_document myOrClause = true
  /\ exists r, addOrClause or_and_query myOrClause = Some r
               /\ query_document r = true.
Proof.
  split; [reflexivity|]. split; [reflexivity|].
  apply (addOrClause_keeps_typing or_and_query myOrClause); reflexivity.
Defined.

(** ** What the removal leaves alone, drops and rejects *)

(** X3: at [maxDepth >= 1], every top-level key of the result other than
    [$or] and [$and] reads as in the query, but for the field itself. *)
Theorem other_fields_untouched (q : doc) (f : string) (maxDepth : Z) (r : doc) :
  (1 <= maxDepth)%Z ->
  removeFieldReferences q f (Some maxDepth) = Some r ->
  forall k, is_operator k = false ->
    get k r = if f =? k then None else get k q.
Proof.
  unfold removeFieldReferences, removeFieldClausesFromQuery. intros Hd H k Hk.
  destruct (Z.to_nat maxDepth) as [|n] eqn:E; [lia|].
  apply remove_at_depth_S_inv in H
    as (ors & mo & ands & ma & _ & _ & _ & _ & ->).
  now rewrite get_rebuilt_other, get_others, Hk by assumption.
Qed.

Lemma other_fields_untouched_witness :
  (1 <= 5)%Z
  /\ removeFieldReferences unordered_query "hello" (Some 5%Z)
     = Some [("a", VNum 0); ("$or", VArr [[("a", VNum 1)]]);
             ("$and", VArr [[("b", VNum 2)]])]
  /\ forall k, is_operator k = false ->
       get k [("a", VNum 0); ("$or", VArr [[("a", VNum 1)]]);
              ("$and", VArr [[("b", VNum 2)]])]
       = if "hello" =? k then None else get k unordered_query.
Proof.
  split; [lia|]. split; [reflexivity|].
  apply (other_fields_untouched unordered_query "hello" 5); [lia | reflexivity].
Defined.

Lemma is_operator_cases k : is_operator k = true -> k = "$or" \/ k = "$and".
Proof.
  unfold is_operator. intros H. apply orb_true_iff in H as [H|H];
    apply String.eqb_eq in H; auto.
Qed.

(** X4: at [maxDepth >= 1], an [$or] or [$and] that holds a truthy value
    other than an array makes the call throw, unless it is the field that
    is being removed. *)
Theorem non_array_operator_throws
  (q : doc) (f k : string) (v : value) (maxDepth : Z) :
  (1 <= maxDepth)%Z -> is_operator k = true -> k <> f ->
  get k q = Some v -> truthy v = true -> (forall l, v <> VArr l) ->
  removeFieldReferences q f (Some maxDepth) = None.
Proof.
  unfold removeFieldReferences, removeFieldClausesFromQuery.
  intros Hd Hk Hne G T Hv.
  destruct (Z.to_nat maxDepth) as [|n] eqn:E; [lia|].
  assert (Ek : or_empty (get k (without f q)) = None).
  { rewrite get_without_other, G by assumption. cbn [or_empty]. rewrite T.
    destruct v; try reflexivity. now destruct (Hv elems). }
  rewrite remove_at_depth_S.
  destruct (is_operator_cases k Hk) as [-> | ->].
  - now rewrite Ek.
  - rewrite Ek. clear Ek.
    destruct (or_empty (get "$or" (without f q))) as [ors|]; [|reflexivity].
    cbn [bind]. now destruct (mapM _ ors).
Qed.

Lemma non_array_operator_throws_witness :
  (1 <= 5)%Z /\ is_operator "$and" = true /\ "$and" <> "hello"
  /\ get "$and" [("hello", VNum 1); ("$and", VObj [("a", VNum 1)])]
     = Some (VObj [("a", VNum 1)])
  /\ truthy (VObj [("a", VNum 1)]) = true
  /\ (forall l, VObj [("a", VNum 1)] <> VArr l)
  /\ removeFieldReferences [("hello", VNum 1); ("$and", VObj [("a", VNum 1)])]
       "hello" (Some 5%Z) = None.
Proof.
  split; [lia|]. split; [reflexivity|]. split; [discriminate|].
  split; [reflexivity|]. split; [reflexivity|]. split; [discriminate|].
  apply (non_array_operator_throws _ "hello" "$and" (VObj [("a", VNum 1)]) 5);
    [lia | reflexivity | discriminate | reflexivity | reflexivity | discriminate].
Defined.

(** X5: at [maxDepth >= 1], an [$or] or [$and] that holds a falsy value
    ([null], [false], [0], the empty string) is read as the empty sequence,
    so the key is missing from the result although it is not the field. *)
Theorem falsy_operator_dropped
  (q : doc) (f k : string) (v : value) (maxDepth : Z) (r : doc) :
  (1 <= maxDepth)%Z -> is_operator k = true ->
  get k q = Some v -> truthy v = false ->
  removeFieldReferences q f (Some maxDepth) = Some r ->
  has_key k r = false.
Proof.
  unfold removeFieldReferences, removeFieldClausesFromQuery.
  intros Hd Hk G T H.
  destruct (Z.to_nat maxDepth) as [|n] eqn:E; [lia|].
  apply remove_at_depth_S_inv in H
    as (ors & mo & ands & ma & Ho & Mo & Ha & Ma & ->).
  assert (Ek : or_empty (get k (without f q)) = Some []).
  { destruct (String.eqb_spec k f) as [->|N].
    - now rewrite get_without_same.
    - rewrite get_without_other, G by assumption. cbn [or_empty]. now rewrite T. }
  destruct (is_operator_cases k Hk) as [-> | ->].
  - rewrite Ek in Ho. injection Ho as <-. apply Forall2_nil_l in Mo. subst mo.
    now rewrite has_key_rebuilt_or by apply others_no_or.
  - rewrite Ek in Ha. injection Ha as <-. apply Forall2_nil_l in Ma. subst ma.
    now rewrite has_key_rebuilt_and by apply others_no_and.
Qed.

Lemma falsy_operator_dropped_witness :
  (1 <= 5)%Z /\ is_operator "$or" = true
  /\ get "$or" [("$or", VNull); ("a", VNum 1)] = Some VNull
  /\ truthy VNull = false
  /\ removeFieldReferences [("$or", VNull); ("a", VNum 1)] "hello" (Some 5%Z)
     = Some [("a", VNum 1)]
  /\ has_key "$or" [("a", VNum 1)] = false.
Proof.
  split; [lia|]. split; [reflexivity|]. split; [reflexivity|].
  split; [reflexivity|]. split; [reflexivity|].
  apply (falsy_operator_dropped [("$or", VNull); ("a", VNum 1)] "hello" "$or" VNull 5);
    [lia | reflexivity | reflexivity | reflexivity | reflexivity].
Defined.

(** X6: removal is idempotent at every [maxDepth], the default included,
    on every query on which the first call returns. *)
Theorem removal_idempotent_any_depth
  (q : doc) (f : string) (maxDepth : option Z) (r : doc) :
  removeFieldReferences q f maxDepth = Some r ->
  removeFieldReferences r f maxDepth = Some r.
Proof.
  unfold removeFieldReferences, removeFieldClausesFromQuery.
  apply remove_at_depth_idempotent.
Qed.

Lemma removal_idempotent_any_depth_witness :
  removeFieldReferences nested_hello "hello" (Some 2%Z)
  = Some [("$and", VArr [[("$or", VArr [[("hello", VStr "value"); ("a", VNum 1)];
                                        [("hello", VNull)]])];
                         [("otherField", VStr "x")]])]
  /\ removeFieldReferences
       [("$and", VArr [[("$or", VArr [[("hello", VStr "value"); ("a", VNum 1)];
                                      [("hello", VNull)]])];
                       [("otherField", VStr "x")]])] "hello" (Some 2%Z)
     = Some [("$and", VArr [[("$or", VArr [[("hello", VStr "value"); ("a", VNum 1)];
                                           [("hello", VNull)]])];
                            [("otherField", VStr "x")]])].
Proof.
  split; [reflexivity|].
  apply (removal_idempotent_any_depth nested_hello "hello" (Some 2%Z)). reflexivity.
Defined.

(** ** Removing two fields *)

Lemma strip_S n f q :
  strip (S n) f q
  = rebuilt (others q f)
      (filter nonempty (map (strip n f) (seq_of "$or" (without f q))))
      (filter nonempty (map (strip n f) (seq_of "$and" (without f q)))).
Proof. reflexivity. Qed.

Lemma strip_nil n f : strip n f [] = [].
Proof. destruct n; reflexivity. Qed.

Lemma filter_map_filter {A : Type} (g : list A -> list A) (l : list (list A)) :
  g [] = [] ->
  filter nonempty (map g (filter nonempty l)) = filter nonempty (map g l).
Proof.
  intros Hg. induction l as [|a l IH]; [reflexivity|].
  destruct a as [|x a]; cbn [filter nonempty map].
  - rewrite Hg. cbn [nonempty]. exact IH.
  - now rewrite IH.
Qed.

Lemma others_filter q f :
  others q f = filter (fun kv => negb (is_operator (fst kv) || (fst kv =? f))) q.
Proof.
  unfold others, without. rewrite !filter_twice. apply filter_ext.
  intros [k x]. cbn [fst]. unfold is_operator.
  destruct (k =? f), (k =? "$or"), (k =? "$and"); reflexivity.
Qed.

Lemma others_app a b f : others (a ++ b) f = others a f ++ others b f.
Proof. rewrite !others_filter. apply filter_app. Qed.

Lemma others_of_others q f g : others (others q f) g = without g (others q f).
Proof.
  rewrite (others_filter (others q f)). unfold without. apply filter_ext_in.
  intros [k x] H. cbn [fst]. now rewrite (is_operator_others _ _ _ _ H).
Qed.

Lemma others_rebuilt_any q f no na g :
  others (rebuilt (others q f) no na) g = without g (others q f).
Proof.
  unfold rebuilt. rewrite !others_app, others_of_others.
  destruct no, na; cbn [nonempty]; rewrite !others_filter; cbn [filter fst];
    change (is_operator "$or") with true; change (is_operator "$and") with true;
    cbn [orb negb]; now rewrite ?app_nil_r.
Qed.

Lemma without_others_comm q f g : without g (others q f) = without f (others q g).
Proof.
  unfold others.
  rewrite (without_comm g "$and"), (without_comm g "$or").
  rewrite (without_comm f "$and"), (without_comm f "$or").
  now rewrite (without_comm g f).
Qed.

Lemma seq_of_or_strip n f q g :
  seq_of "$or" (without g (strip (S n) f q))
  = if g =? "$or" then []
    else filter nonempty
           (map (strip n f) (if f =? "$or" then [] else seq_of "$or" q)).
Proof.
  rewrite seq_of_without, strip_S, seq_of_rebuilt_or by apply others_no_or.
  now rewrite seq_of_without.
Qed.

Lemma seq_of_and_strip n f q g :
  seq_of "$and" (without g (strip (S n) f q))
  = if g =? "$and" then []
    else filter nonempty
           (map (strip n f) (if f =? "$and" then [] else seq_of "$and" q)).
Proof.
  rewrite seq_of_without, strip_S, seq_of_rebuilt_and by apply others_no_and.
  now rewrite seq_of_without.
Qed.

Lemma strip_twice_sequence n f g (l : list doc) (bf bg : bool) :
  (forall q, strip n g (strip n f q) = strip n f (strip n g q)) ->
  filter nonempty
    (map (strip n g)
       (if bg then [] else filter nonempty (map (strip n f) (if bf then [] else l))))
  = filter nonempty
      (map (strip n f)
         (if bf then [] else filter nonempty (map (strip n g) (if bg then [] else l)))).
Proof.
  intros IH. destruct bf, bg; try reflexivity.
  rewrite !filter_map_filter by apply strip_nil.
  rewrite !map_map. f_equal. apply map_ext. intros a. apply IH.
Qed.

Lemma strip_comm n : forall q f g,
  strip n g (strip n f q) = strip n f (strip n g q).
Proof.
  induction n as [|n IH]; intros q f g; [reflexivity|].
  rewrite (strip_S n g (strip (S n) f q)), (strip_S n f (strip (S n) g q)).
  rewrite !seq_of_or_strip, !seq_of_and_strip.
  rewrite (strip_S n f q) at 1. rewrite (strip_S n g q) at 1.
  rewrite !others_rebuilt_any, (without_others_comm q f g).
  f_equal; apply strip_twice_sequence; intros; apply IH.
Qed.

(** X7: removing two fields one after the other, at the same depth, gives
    the same document in either order. *)
Theorem removal_commutes (q : doc) (f g : string) (maxDepth : option Z) :
  query_document q = true ->
  exists r1 r2 r,
    removeFieldReferences q f maxDepth = Some r1
    /\ removeFieldReferences r1 g maxDepth = Some r
    /\ removeFieldReferences q g maxDepth = Some r2
    /\ removeFieldReferences r2 f maxDepth = Some r.
Proof.
  intros Tq. unfold removeFieldReferences, removeFieldClausesFromQuery.
  set (n := Z.to_nat match maxDepth with Some d => d | None => 5%Z end).
  exists (strip n f q), (strip n g q), (strip n g (strip n f q)).
  repeat split.
  - now apply remove_at_depth_strip.
  - apply remove_at_depth_strip. now apply query_document_strip.
  - now apply remove_at_depth_strip.
  - rewrite strip_comm. apply remove_at_depth_strip. now apply query_document_strip.
Qed.

Lemma removal_commutes_witness :
  query_document nested_hello = true
  /\ exists r1 r2 r,
       removeFieldReferences nested_hello "hello" None = Some r1
       /\ removeFieldReferences r1 "$or" None = Some r
       /\ removeFieldReferences nested_hello "$or" None = Some r2
       /\ removeFieldReferences r2 "hello" None = Some r.
Proof.
  split; [reflexivity|].
  apply (removal_commutes nested_hello "hello" "$or" None). reflexivity.
Defined.

Example removal_commutes_example :
  removeFieldReferences
    [("a", VNum 1); ("$or", VArr [[("a", VNum 2)]; [("b", VNum 3); ("a", VNum 4)]])]
    "a" None
  = Some [("$or", VArr [[("b", VNum 3)]])]
  /\ removeFieldReferences [("$or", VArr [[("b", VNum 3)]])] "b" None = Some []
  /\ removeFieldReferences
       [("a", VNum 1); ("$or", VArr [[("a", VNum 2)]; [("b", VNum 3); ("a", VNum 4)]])]
       "b" None
     = Some [("a", VNum 1); ("$or", VArr [[("a", VNum 2)]; [("a", VNum 4)]])]
  /\ removeFieldReferences
       [("a", VNum 1); ("$or", VArr [[("a", VNum 2)]; [("a", VNum 4)]])] "a" None
     = Some [].
Proof. repeat split. Qed.

(** ** Queries no deeper than the bound *)

Lemma In_seq_of_without k f q e :
  In e (seq_of k (without f q)) -> In e (seq_of k q).
Proof. rewrite seq_of_without. now destruct (f =? k). Qed.

Lemma In_subqueries_or q e : In e (seq_of "$or" q) -> In e (subqueries q).
Proof. intros H. apply in_or_app. now left. Qed.

Lemma In_subqueries_and q e : In e (seq_of "$and" q) -> In e (subqueries q).
Proof. intros H. apply in_or_app. now right. Qed.

Lemma strip_deeper n : forall q f,
  fits n q = true -> strip (S n) f q = strip n f q.
Proof.
  induction n as [|n IH]; intros q f H; [discriminate|].
  cbn [fits] in H. rewrite forallb_forall in H.
  rewrite (strip_S (S n)), (strip_S n).
  f_equal; f_equal; apply map_ext_in; intros e He; apply IH, H;
    apply In_seq_of_without in He.
  - now apply In_subqueries_or.
  - now apply In_subqueries_and.
Qed.

Lemma fits_S n : forall q, fits n q = true -> fits (S n) q = true.
Proof.
  induction n as [|n IH]; intros q H; [discriminate|].
  cbn [fits] in H |- *. rewrite forallb_forall in H. apply forallb_forall.
  intros e He. change (fits (S n) e = true). apply IH, H, He.
Qed.

Lemma strip_stable n q f k :
  fits n q = true -> strip (n + k) f q = strip n f q.
Proof.
  intros H. induction k as [|k IH].
  - now rewrite Nat.add_0_r.
  - rewrite Nat.add_succ_r, strip_deeper; [exact IH|].
    clear IH. induction k as [|k IHk].
    + now rewrite Nat.add_0_r.
    + rewrite Nat.add_succ_r. now apply fits_S.
Qed.

Lemma free_of_S f n : forall q, free_of f (S n) q = true -> free_of f n q = true.
Proof.
  induction n as [|n IH]; intros q H; [reflexivity|].
  cbn [free_of] in H. apply andb_true_iff in H as [Hk Hs].
  cbn [free_of]. rewrite Hk. cbn [andb].
  rewrite forallb_forall in Hs. apply forallb_forall. intros e He.
  apply IH. exact (Hs e He).
Qed.

Lemma free_of_le f n m q : (m <= n)%nat -> free_of f n q = true -> free_of f m q = true.
Proof.
  intros Hle. induction Hle as [|n Hle IH]; [auto|].
  intros H. apply IH. now apply free_of_S.
Qed.

(** X8: when the query has at most [maxDepth] nesting levels, a larger
    bound changes nothing. *)
Theorem deeper_bound_same_result (q : doc) (f : string) (maxDepth bound : Z) :
  query_document q = true -> fits (Z.to_nat maxDepth) q = true ->
  (maxDepth <= bound)%Z ->
  removeFieldReferences q f (Some bound) = removeFieldReferences q f (Some maxDepth).
Proof.
  intros Tq Hf Hle. unfold removeFieldReferences, removeFieldClausesFromQuery.
  rewrite !remove_at_depth_strip by assumption. f_equal.
  replace (Z.to_nat bound)
    with (Z.to_nat maxDepth + (Z.to_nat bound - Z.to_nat maxDepth))%nat by lia.
  now apply strip_stable.
Qed.

Lemma deeper_bound_same_result_witness :
  query_document nested_hello = true /\ fits (Z.to_nat 3) nested_hello = true
  /\ (3 <= 5)%Z
  /\ removeFieldReferences nested_hello "hello" (Some 5%Z)
     = removeFieldReferences nested_hello "hello" (Some 3%Z).
Proof.
  split; [reflexivity|]. split; [reflexivity|]. split; [lia|].
  apply (deeper_bound_same_result nested_hello "hello" 3 5); [reflexivity | reflexivity | lia].
Defined.

(** X9: when the query has at most [maxDepth] nesting levels, no key
    [fieldName] is left at any level of the result. *)
Theorem removal_complete_within_bound (q : doc) (f : string) (maxDepth : Z) :
  query_document q = true -> fits (Z.to_nat maxDepth) q = true ->
  exists r,
    removeFieldReferences q f (Some maxDepth) = Some r
    /\ forall m, free_of f m r = true.
Proof.
  intros Tq Hf. unfold removeFieldReferences, removeFieldClausesFromQuery.
  set (n := Z.to_nat maxDepth) in *.
  exists (strip n f q). split; [now apply remove_at_depth_strip|].
  intros m. apply (free_of_le f (n + m) m); [lia|].
  rewrite <- (strip_stable n q f m Hf).
  apply (remove_at_depth_free_of (n + m) q f). now apply remove_at_depth_strip.
Qed.

Lemma removal_complete_within_bound_witness :
  query_document nested_hello = true /\ fits (Z.to_nat 3) nested_hello = true
  /\ exists r,
       removeFieldReferences nested_hello "hello" (Some 3%Z) = Some r
       /\ forall m, free_of "hello" m r = true.
Proof.
  split; [reflexivity|]. split; [reflexivity|].
  apply (removal_complete_within_bound nested_hello "hello" 3); reflexivity.
Defined.

Example nested_hello_levels :
  fits 2 nested_hello = false /\ fits 3 nested_hello = true.
Proof. split; reflexivity. Qed.

(** ** Adding a clause on a field and removing the field *)

Lemma without_only_field f e : only_field f e = true -> without f e = [].
Proof.
  unfold only_field. induction e as [|[k x] e IH]; [reflexivity|].
  cbn [keys map fst forallb]. fold (keys e). intros H.
  apply andb_true_iff in H as [Hk He]. cbn [without filter fst].
  rewrite Hk. cbn [negb]. now apply IH.
Qed.

Lemma strip_only_field n f e : only_field f e = true -> strip (S n) f e = [].
Proof.
  intros H. rewrite strip_S. unfold others.
  now rewrite (without_only_field f e H).
Qed.

Lemma only_field_typed f e :
  is_operator f = false -> only_field f e = true -> query_document e = true.
Proof.
  unfold only_field, query_document, keys. intros Hf H.
  rewrite forallb_forall in H. apply forallb_forall. intros [k x] Hin.
  assert (Hk : (k =? f) = true) by (apply H, in_map_iff; now exists (k, x)).
  apply String.eqb_eq in Hk. subst k. now rewrite Hf.
Qed.

Lemma filter_nonempty_all_empty {A B : Type} (l : list A) :
  filter nonempty (map (fun _ : A => @nil B) l) = [].
Proof. induction l; [reflexivity | assumption]. Qed.

Lemma strip_sequence_only_field n f l :
  forallb (only_field f) l = true ->
  filter nonempty (map (strip (S n) f) l) = [].
Proof.
  intros H. rewrite forallb_forall in H.
  rewrite (map_ext_in _ (fun _ => [])) by (intros; now apply strip_only_field, H).
  apply filter_nonempty_all_empty.
Qed.

Lemma not_operator_neq f :
  is_operator f = false -> (f =? "$or") = false /\ (f =? "$and") = false.
Proof. unfold is_operator. intros H. now apply orb_false_iff in H. Qed.

Lemma strip_or_clause n f l :
  is_operator f = false -> forallb (only_field f) l = true ->
  strip (S (S n)) f [("$or", VArr l)] = [].
Proof.
  intros Hf Hl. destruct (not_operator_neq f Hf) as [Ho Ha].
  rewrite strip_S, !seq_of_without, Ho, Ha, others_filter.
  cbn [filter fst]. change (is_operator "$or") with true. cbn [orb negb].
  change (seq_of "$or" [("$or", VArr l)]) with l.
  change (seq_of "$and" [("$or", VArr l)]) with (@nil doc).
  now rewrite (strip_sequence_only_field n f l Hl).
Qed.

Lemma others_replace_value k v q f :
  is_operator k = true -> others (replace_value k v q) f = others q f.
Proof.
  intros Hk. rewrite !others_filter.
  induction q as [|[k0 x] q IH]; [reflexivity|].
  cbn [replace_value]. destruct (String.eqb_spec k0 k) as [->|N].
  - cbn [filter fst]. now rewrite Hk.
  - cbn [filter fst]. now rewrite IH.
Qed.

Lemma seq_of_app_absent k a b :
  get k b = None -> seq_of k (a ++ b) = seq_of k a.
Proof. intros H. unfold seq_of. rewrite get_app, H. now destruct (get k a). Qed.

Lemma add_then_strip n q l f :
  query_document q = true -> has_key "$or" q = false ->
  is_operator f = false -> forallb (only_field f) l = true ->
  exists r0,
    addOrClause q [("$or", VArr l)] = Some r0
    /\ strip (S (S (S n))) f r0 = strip (S (S (S n))) f q.
Proof.
  intros Tq Ho Hf Hl. destruct (not_operator_neq f Hf) as [Fo Fa].
  pose proof Ho as Go. apply has_key_false_get in Go.
  destruct (get "$and" q) as [v|] eqn:Ga.
  - destruct (seq_typed_inv v (query_document_get _ "$and" _ Tq eq_refl Ga))
      as [ands [-> _]].
    rewrite (addOrClause_with_and _ _ _ Ho Ga). eexists. split; [reflexivity|].
    assert (Hk : has_key "$and" q = true) by (apply has_key_true_get; eauto).
    rewrite (strip_S _ f (set _ _ _)), (strip_S _ f q), !seq_of_without, Fo, Fa.
    unfold seq_of. rewrite !get_set, Go, Ga. cbn [String.eqb].
    change ("$and" =? "$or") with false. change ("$and" =? "$and") with true.
    cbv iota. unfold set. rewrite Hk, others_replace_value by reflexivity.
    rewrite map_app, filter_app. cbn [map filter].
    rewrite (strip_or_clause n f l Hf Hl). cbn [nonempty]. now rewrite app_nil_r.
  - assert (Hk : has_key "$and" q = false) by now apply has_key_false_get.
    rewrite (addOrClause_plain _ _ Ho Hk). eexists. split; [reflexivity|].
    rewrite spread_cons, spread_nil, set_fresh by (assumption || reflexivity).
    rewrite (strip_S _ f (q ++ _)), (strip_S _ f q), !seq_of_without, Fo, Fa.
    rewrite others_app, (seq_of_app_absent "$and") by reflexivity.
    unfold seq_of at 1 3. rewrite get_app, Go.
    change (get "$or" [("$or", VArr l)]) with (Some (VArr l)). cbv iota.
    rewrite (strip_sequence_only_field _ f l Hl).
    rewrite others_filter with (q := [("$or", VArr l)]). cbn [filter fst].
    change (is_operator "$or") with true. cbn [orb negb map filter].
    now rewrite app_nil_r.
Qed.

(** X10: on a query without [$or], adding a clause [{$or: l}] whose
    alternatives mention only one field and then removing that field, at
    [maxDepth >= 3], gives what removing the field from the query gives. *)
Theorem add_then_remove (q : doc) (l : list doc) (f : string) (maxDepth : Z) :
  query_document q = true -> has_key "$or" q = false ->
  is_operator f = false -> forallb (only_field f) l = true ->
  (3 <= maxDepth)%Z ->
  exists r0 r,
    addOrClause q [("$or", VArr l)] = Some r0
    /\ removeFieldReferences r0 f (Some maxDepth) = Some r
    /\ removeFieldReferences q f (Some maxDepth) = Some r.
Proof.
  intros Tq Ho Hf Hl Hd.
  unfold removeFieldReferences, removeFieldClausesFromQuery.
  destruct (Z.to_nat maxDepth) as [|[|[|n]]] eqn:E; try lia.
  destruct (add_then_strip n q l f Tq Ho Hf Hl) as (r0 & Hr0 & Hs).
  exists r0, (strip (S (S (S n))) f q). split; [assumption|]. split.
  - rewrite <- Hs. apply remove_at_depth_strip.
    apply (addOrClause_typed q [("$or", VArr l)] r0); try assumption.
    unfold query_document. cbn [forallb]. change (is_operator "$or") with true.
    cbv iota. rewrite seq_typed_arr, andb_true_r.
    rewrite forallb_forall in Hl. apply forallb_forall. intros e He.
    apply (only_field_typed f); auto.
  - now apply remove_at_depth_strip.
Qed.

Lemma add_then_remove_witness :
  query_document and_query = true /\ has_key "$or" and_query = false
  /\ is_operator "createdAt" = false
  /\ forallb (only_field "createdAt")
       [[("createdAt", VObj [("$exists", VBool false)])]; [("createdAt", VNum 42)]]
     = true
  /\ (3 <= 5)%Z
  /\ exists r0 r,
       addOrClause and_query created_clause = Some r0
       /\ removeFieldReferences r0 "createdAt" (Some 5%Z) = Some r
       /\ removeFieldReferences and_query "createdAt" (Some 5%Z) = Some r.
Proof.
  split; [reflexivity|]. split; [reflexivity|]. split; [reflexivity|].
  split; [reflexivity|]. split; [lia|].
  apply (add_then_remove and_query
           [[("createdAt", VObj [("$exists", VBool false)])]; [("createdAt", VNum 42)]]
           "createdAt" 5); try reflexivity. lia.
Defined.

(** With an [$or] in the query the clause is wrapped into [$and], and what
    is left after the removal is not the query. *)
Example add_then_remove_with_or :
  addOrClause [("$or", VArr [[("a", VNum 1)]])] created_clause
  = Some [("$and", VArr [[("$or", VArr [[("a", VNum 1)]])]; created_clause])]
  /\ removeFieldReferences
       [("$and", VArr [[("$or", VArr [[("a", VNum 1)]])]; created_clause])]
       "createdAt" None
     = Some [("$and", VArr [[("$or", VArr [[("a", VNum 1)]])]])]
  /\ removeFieldReferences [("$or", VArr [[("a", VNum 1)]])] "createdAt" None
     = Some [("$or", VArr [[("a", VNum 1)]])].
Proof. repeat split. Qed.

(** ** Lists of keys to omit *)

Lemma existsb_same_elements (a b : list string) k :
  (forall x, In x a <-> In x b) ->
  existsb (fun f => f =? k) a = existsb (fun f => f =? k) b.
Proof.
  intros H. apply eq_true_iff_eq. rewrite !existsb_exists.
  split; intros [x [Hin E]]; exists x; split; try assumption; now apply H.
Qed.

(** X11: for non-empty lists of keys, only the set of listed keys matters:
    neither their order nor a repetition changes the result of [omit]. *)
Theorem omit_same_keys (document : doc) (a b : list string) :
  a <> [] -> b <> [] -> (forall k, In k a <-> In k b) ->
  omit document a = omit document b.
Proof.
  intros Ha Hb H. rewrite !omit_filter by assumption.
  apply filter_ext. intros [k x]. cbn [fst]. f_equal.
  now apply existsb_same_elements.
Qed.

Lemma omit_same_keys_witness :
  ["$or"; "$and"] <> [] /\ ["$and"; "$or"; "$and"] <> []
  /\ (forall k, In k ["$or"; "$and"] <-> In k ["$and"; "$or"; "$and"])
  /\ omit unordered_query ["$or"; "$and"] = omit unordered_query ["$and"; "$or"; "$and"].
Proof.
  assert (H : forall k, In k ["$or"; "$and"] <-> In k ["$and"; "$or"; "$and"]).
  { intros k. simpl. tauto. }
  split; [discriminate|]. split; [discriminate|]. split; [exact H|].
  apply (omit_same_keys unordered_query ["$or"; "$and"] ["$and"; "$or"; "$and"]);
    [discriminate | discriminate | exact H].
Defined.

(** X12: omitting one non-empty list of keys and then another is omitting
    the two lists at once. *)
Theorem omit_twice (document : doc) (a b : list string) :
  a <> [] -> b <> [] ->
  omit (omit document a) b = omit document (a ++ b).
Proof.
  intros Ha Hb.
  assert (Hab : a ++ b <> []) by (destruct a; [congruence | discriminate]).
  rewrite !omit_filter by assumption. rewrite filter_twice.
  apply filter_ext. intros [k x]. cbn [fst].
  now rewrite existsb_app, negb_orb.
Qed.

Lemma omit_twice_witness :
  ["hello"] <> [] /\ ["$or"; "$and"] <> []
  /\ omit (omit unordered_query ["hello"]) ["$or"; "$and"]
     = omit unordered_query (["hello"] ++ ["$or"; "$and"]).
Proof.
  split; [discriminate|]. split; [discriminate|].
  apply (omit_twice unordered_query ["hello"] ["$or"; "$and"]); discriminate.
Defined.

(** ** When [addOrClause] returns *)

(** X13: [addOrClause] returns whatever [$or] holds and whatever the clause
    is, as long as the [$and] of the query is missing, falsy or an array. *)
Theorem addOrClause_returns (query orClause : doc) :
  (forall v, get "$and" query = Some v -> truthy v = true -> exists l, v = VArr l) ->
  exists r, addOrClause query orClause = Some r.
Proof.
  intros H.
  assert (Ea : exists ands, or_empty (get "$and" query) = Some ands).
  { destruct (get "$and" query) as [v|]; [|cbn; eauto].
    cbn [or_empty]. destruct (truthy v) eqn:T; [|eauto].
    destruct (H v eq_refl T) as [l ->]. eauto. }
  destruct Ea as [ands Ea].
  destruct (truthy_opt (get "$or" query)) eqn:T.
  - destruct (get "$or" query) as [orv|] eqn:G; [|discriminate].
    rewrite (addOrClause_with_or _ _ _ G T), Ea. cbn [bind]. eauto.
  - rewrite (addOrClause_no_or _ _ T), Ea. cbn [bind].
    destruct (truthy_opt (get "$and" query)); eauto.
Qed.

Lemma addOrClause_returns_witness :
  (forall v, get "$and" [("$or", VNum 7); ("a", VNull)] = Some v ->
             truthy v = true -> exists l, v = VArr l)
  /\ exists r, addOrClause [("$or", VNum 7); ("a", VNull)] [("b", VNum 1)] = Some r.
Proof.
  assert (H : forall v, get "$and" [("$or", VNum 7); ("a", VNull)] = Some v ->
                        truthy v = true -> exists l, v = VArr l).
  { intros v Hv. discriminate Hv. }
  split; [exact H|].
  apply (addOrClause_returns [("$or", VNum 7); ("a", VNull)] [("b", VNum 1)]). exact H.
Defined.

Example addOrClause_non_array_or :
  addOrClause [("$or", VNum 7); ("a", VNull)] [("b", VNum 1)]
  = Some [("a", VNull); ("$and", VArr [[("$or", VNum 7)]; [("b", VNum 1)]])].
Proof. reflexivity. Qed.

(** X14: when the [$and] of the query is missing, falsy or an array, and
    the query holds a truthy [$or] or a truthy [$and], [addOrClause] returns
    a document that has no [$or] at its top level and whose [$and] ends with
    the clause. *)
Theorem clause_goes_last_into_and (query orClause : doc) :
  (forall v, get "$and" query = Some v -> truthy v = true -> exists l, v = VArr l) ->
  truthy_opt (get "$or" query) || truthy_opt (get "$and" query) = true ->
  exists r,
    addOrClause query orClause = Some r
    /\ has_key "$or" r = false
    /\ exists front, get "$and" r = Some (VArr (front ++ [orClause])).
Proof.
  intros H T.
  assert (Ea : exists ands, or_empty (get "$and" query) = Some ands).
  { destruct (get "$and" query) as [v|]; [|cbn; eauto].
    cbn [or_empty]. destruct (truthy v) eqn:Tv; [|eauto].
    destruct (H v eq_refl Tv) as [l ->]. eauto. }
  destruct Ea as [ands Ea].
  assert (K : forall v, has_key "$or" (set "$and" v (without "$or" query)) = false).
  { intros v. rewrite has_key_set, has_key_without_same. reflexivity. }
  destruct (truthy_opt (get "$or" query)) eqn:To.
  - destruct (get "$or" query) as [orv|] eqn:G; [|discriminate].
    rewrite (addOrClause_with_or _ _ _ G To), Ea. cbn [bind].
    eexists. split; [reflexivity|]. split; [apply K|].
    exists (ands ++ [[("$or", orv)]]). rewrite get_set, <- app_assoc. reflexivity.
  - cbn [orb] in T. rewrite (addOrClause_no_or _ _ To), T, Ea. cbn [bind].
    eexists. split; [reflexivity|]. split; [apply K|].
    exists ands. now rewrite get_set.
Qed.

Lemma clause_goes_last_into_and_witness :
  (forall v, get "$and" null_or_query = Some v -> truthy v = true ->
             exists l, v = VArr l)
  /\ truthy_opt (get "$or" null_or_query) || truthy_opt (get "$and" null_or_query)
     = true
  /\ exists r,
       addOrClause null_or_query myOrClause = Some r
       /\ has_key "$or" r = false
       /\ exists front, get "$and" r = Some (VArr (front ++ [myOrClause])).
Proof.
  assert (H : forall v, get "$and" null_or_query = Some v -> truthy v = true ->
                        exists l, v = VArr l).
  { intros v Hv _. injection Hv as <-. eauto. }
  split; [exact H|]. split; [reflexivity|].
  apply (clause_goes_last_into_and null_or_query myOrClause); [exact H | reflexivity].
Defined.

Example clause_goes_last_into_and_example :
  addOrClause null_or_query myOrClause
  = Some [("$and", VArr [[("a", VNum 1)]; myOrClause])].
Proof. reflexivity. Qed.

(** ** Queries no deeper than the bound are normalised *)

Lemma strip_valid n : forall q f,
  fits n q = true -> valid_shape (strip n f q) = true.
Proof.
  induction n as [|n IH]; intros q f H; [discriminate|].
  cbn [fits] in H. rewrite forallb_forall in H.
  rewrite strip_S. apply valid_shape_rebuilt; [apply valid_shape_others | |];
    apply forallb_forall; intros e He; apply in_map_iff in He as [a [<- Ha]];
    apply IH, H; apply In_seq_of_without in Ha.
  - now apply In_subqueries_or.
  - now apply In_subqueries_and.
Qed.

(** X15: when the query has at most [maxDepth] nesting levels, the result
    has no empty [$or] or [$and] and no empty document in one, at any level,
    whatever the query had. *)
Theorem removal_normalises_within_bound (q : doc) (f : string) (maxDepth : Z) :
  query_document q = true -> fits (Z.to_nat maxDepth) q = true ->
  exists r,
    removeFieldReferences q f (Some maxDepth) = Some r /\ valid_shape r = true.
Proof.
  intros Tq Hf. unfold removeFieldReferences, removeFieldClausesFromQuery.
  exists (strip (Z.to_nat maxDepth) f q).
  split; [now apply remove_at_depth_strip | now apply strip_valid].
Qed.

Lemma removal_normalises_within_bound_witness :
  query_document empty_or_below_depth = true
  /\ fits (Z.to_nat 2) empty_or_below_depth = true
  /\ valid_shape empty_or_below_depth = false
  /\ exists r,
       removeFieldReferences empty_or_below_depth "hello" (Some 2%Z) = Some r
       /\ valid_shape r = true.
Proof.
  split; [reflexivity|]. split; [reflexivity|]. split; [reflexivity|].
  apply (removal_normalises_within_bound empty_or_below_depth "hello" 2); reflexivity.
Defined.
